(** * Kleinanzeigen listing scraper: extraction helpers, retry pipeline, endpoint

    A shallow embedding of

    - [libs/websites/kleinanzeigen.py]  (module [kleinanzeigen] below),
    - [scrapers/inserat.py]             (module [scraper]),
    - [routers/inserat.py]              (module [router]),

    followed by the properties established about them.

    Conventions.  A Python [str] is a list of Unicode code points.  A call
    that may raise returns a value of [Exc A]: [inl e] when the exception
    [e] leaves the call, [inr a] when it returns [a].  The exceptions are the
    instances of subclasses of [Exception], which is what the handlers
    [except Exception] of the sources catch; the scraper adds FastAPI's
    [HTTPException] to those of the libraries.  Readings of the wall clock
    ([time.time()], the timing fields of the metrics, [time_taken]) are
    measurements of the environment and are left out of the records. *)

From Stdlib Require Import List String Ascii ZArith NArith QArith Bool Lia.
From Stdlib Require Import DecimalString.
Import ListNotations.
Set Warnings "-register-all".
Close Scope Q_scope.

(** ** Python strings *)

Module Py.

Definition str := list N.

(** An ASCII literal as a [str]. *)
Definition lit (s : string) : str :=
  map N_of_ascii (list_ascii_of_string s).

(** U+20AC EURO SIGN and U+2022 BULLET, the two non-ASCII characters of the
    sources. *)
Definition euro : N := 8364%N.
Definition bullet : N := 8226%N.

Definition str_eqb (a b : str) : bool :=
  if list_eq_dec N.eq_dec a b then true else false.

(** [c.isspace()] for a single code point. *)
Definition isspace (c : N) : bool :=
  ((9 <=? c) && (c <=? 13) || (28 <=? c) && (c <=? 32)
   || (c =? 133) || (c =? 160) || (c =? 5760)
   || (8192 <=? c) && (c <=? 8202)
   || (c =? 8232) || (c =? 8233) || (c =? 8239) || (c =? 8287)
   || (c =? 12288))%N.

Fixpoint lstrip (s : str) : str :=
  match s with
  | [] => []
  | c :: r => if isspace c then lstrip r else s
  end.

Definition rstrip (s : str) : str := rev (lstrip (rev s)).

(** [s.strip()] *)
Definition strip (s : str) : str := rstrip (lstrip s).

Fixpoint startswith (p s : str) : bool :=
  match p, s with
  | [], _ => true
  | _ :: _, [] => false
  | a :: p', b :: s' => (a =? b)%N && startswith p' s'
  end.

(** [sub in s] *)
Fixpoint contains (sub s : str) : bool :=
  startswith sub s ||
  match s with
  | [] => false
  | _ :: r => contains sub r
  end.

(** [s.replace(old, new)] for a non-empty [old]: occurrences are found from
    the left and do not overlap.  [skip] counts the characters of a matched
    occurrence that are still to be dropped. *)
Fixpoint replace_from (old new : str) (skip : nat) (s : str) : str :=
  match s with
  | [] => []
  | c :: r =>
      match skip with
      | S k => replace_from old new k r
      | O =>
          if startswith old s
          then new ++ replace_from old new (List.length old - 1) r
          else c :: replace_from old new 0 r
      end
  end.

(** With an empty [old], Python puts [new] before every character and at
    the end. *)
Definition replace (old new s : str) : str :=
  match old with
  | [] => new ++ flat_map (fun c => c :: new) s
  | _ :: _ => replace_from old new 0 s
  end.

(** [s.split(sep)] for a non-empty separator: the pieces between the
    occurrences of [sep], empty pieces included.  [cur] is the piece being
    read, reversed. *)
Fixpoint split_from (sep : str) (skip : nat) (cur : str) (s : str)
  : list str :=
  match s with
  | [] => [rev cur]
  | c :: r =>
      match skip with
      | S k => split_from sep k cur r
      | O =>
          if startswith sep s
          then rev cur :: split_from sep (List.length sep - 1) [] r
          else split_from sep 0 (c :: cur) r
      end
  end.

Definition split (sep s : str) : list str := split_from sep 0 [] s.

(** [s.split()]: the maximal runs of non-whitespace characters. *)
Fixpoint split_ws_from (cur : str) (s : str) : list str :=
  match s with
  | [] => match cur with [] => [] | _ :: _ => [rev cur] end
  | c :: r =>
      if isspace c
      then match cur with
           | [] => split_ws_from [] r
           | _ :: _ => rev cur :: split_ws_from [] r
           end
      else split_ws_from (c :: cur) r
  end.

Definition split_ws (s : str) : list str := split_ws_from [] s.

(** [sep.join(parts)] *)
Fixpoint join (sep : str) (parts : list str) : str :=
  match parts with
  | [] => []
  | [p] => p
  | p :: rest => p ++ sep ++ join sep rest
  end.

(** [re.sub(r"[...]+", repl, s)] for a character class: every maximal run
    of characters of the class becomes one [repl].  [inrun] tells that the
    previous character belonged to the class. *)
Fixpoint sub_runs (cls : N -> bool) (repl : str) (inrun : bool) (s : str)
  : str :=
  match s with
  | [] => []
  | c :: r =>
      if cls c
      then if inrun then sub_runs cls repl true r
           else repl ++ sub_runs cls repl true r
      else c :: sub_runs cls repl false r
  end.

(** Truth value of an [Optional[str]]: [None] and the empty string are
    false. *)
Definition truthy (o : option str) : bool :=
  match o with
  | Some (_ :: _) => true
  | _ => false
  end.

(** An exception raised by the interpreter or by a library (httpx, bs4,
    soupsieve): an instance of a subclass of [Exception], given by the name
    of its class and by [str(e)]. *)
Record exn := { exn_class : str; exn_str : str }.

Definition AttributeError (m : str) : exn :=
  {| exn_class := lit "AttributeError"; exn_str := m |}.
Definition TypeError (m : str) : exn :=
  {| exn_class := lit "TypeError"; exn_str := m |}.
Definition IndexError (m : str) : exn :=
  {| exn_class := lit "IndexError"; exn_str := m |}.

Definition Exc (A : Type) : Type := (exn + A)%type.

Definition ret {A} (a : A) : Exc A := inr a.
Definition raise {A} (e : exn) : Exc A := inl e.
Definition bind {A B} (m : Exc A) (k : A -> Exc B) : Exc B :=
  match m with
  | inl e => inl e
  | inr a => k a
  end.

(** [try: body except Exception as e: handler(e)] *)
Definition try_except {A} (body : Exc A) (handler : exn -> Exc A) : Exc A :=
  match body with
  | inl e => handler e
  | inr a => inr a
  end.

End Py.

Declare Scope exc_scope.
Delimit Scope exc_scope with exc.
Notation "x <- m ;; k" := (Py.bind m (fun x => k))
  (at level 61, m at next level, right associativity) : exc_scope.

(** ** [libs/websites/kleinanzeigen.py] *)

Module kleinanzeigen.
Import Py.
Local Open Scope exc_scope.

(** A node of the parsed document: a string, or a tag with its classes (the
    multi-valued [class] attribute), its other attributes and its
    children. *)
Inductive Node :=
| NString (s : str)
| NTag (name : str) (classes : list str) (attrs : list (str * str))
       (children : list Node).

(** The strings below a node, in document order. *)
Fixpoint all_strings (n : Node) : list str :=
  match n with
  | NString s => [s]
  | NTag _ _ _ cs => flat_map all_strings cs
  end.

(** [element.get_text(strip=True)]: every string stripped, the empty ones
    dropped, the rest concatenated. *)
Definition get_text_strip (n : Node) : str :=
  List.concat (filter (fun s => negb (str_eqb s [])) (map strip (all_strings n))).

(** [element.has_attr(key)] and [element[key]] *)
Fixpoint attr_lookup (key : str) (attrs : list (str * str)) : option str :=
  match attrs with
  | [] => None
  | (k, v) :: rest => if str_eqb k key then Some v else attr_lookup key rest
  end.

Definition node_attrs (n : Node) : list (str * str) :=
  match n with
  | NString _ => []
  | NTag _ _ attrs _ => attrs
  end.

Definition has_attr (n : Node) (key : str) : bool :=
  match attr_lookup key (node_attrs n) with Some _ => true | None => false end.

Definition has_class (c : str) (n : Node) : bool :=
  match n with
  | NString _ => false
  | NTag _ classes _ _ => existsb (str_eqb c) classes
  end.

(** [item.find(class_=c)]: the first tag below [item], in document order,
    that carries the class [c]. *)
Fixpoint find_in (c : str) (n : Node) : option Node :=
  if has_class c n then Some n
  else
    match n with
    | NString _ => None
    | NTag _ _ _ cs =>
        (fix first (l : list Node) : option Node :=
           match l with
           | [] => None
           | x :: r =>
               match find_in c x with
               | Some y => Some y
               | None => first r
               end
           end) cs
    end.

Definition find_class (item : Node) (c : str) : option Node :=
  match item with
  | NString _ => None
  | NTag _ _ _ cs =>
      (fix first (l : list Node) : option Node :=
         match l with
         | [] => None
         | x :: r =>
             match find_in c x with
             | Some y => Some y
             | None => first r
             end
         end) cs
  end.

(** A [BeautifulSoup] document, seen through its selector engine:
    [soup.select(selector)] gives the matching elements in document order,
    or raises (soupsieve rejects a selector it cannot parse). *)
Definition BeautifulSoup := str -> Exc (list Node).

Definition select (soup : BeautifulSoup) (selector : str) : Exc (list Node) :=
  soup selector.

(** [soup.select_one(selector)]: the first match, or [None]. *)
Definition select_one (soup : BeautifulSoup) (selector : str)
  : Exc (option Node) :=
  l <- soup selector ;; ret (hd_error l).

Definition get_element_content (soup : BeautifulSoup) (selector : str)
           (default : option str) : Exc (option str) :=
  element <- select_one soup selector ;;
  ret match element with
      | Some el => Some (get_text_strip el)
      | None => default
      end.

Definition get_elements_content (soup : BeautifulSoup) (selector : str)
  : Exc (list str) :=
  elements <- select soup selector ;;
  ret (map get_text_strip elements).

Definition get_image_sources (soup : BeautifulSoup) (selector : str)
  : Exc (list str) :=
  let images : list str := [] in
  image_element <- select_one soup selector ;;
  ret match image_element with
      | Some el =>
          match attr_lookup (lit "src") (node_attrs el) with
          | Some src => images ++ [src]
          | None => images
          end
      | None => images
      end.

Record Price := { amount : str; currency : str; negotiable : bool }.

Definition parse_price (price_text : option str) : Price :=
  match price_text with
  | None | Some [] =>
      {| amount := lit "0"; currency := [euro]; negotiable := false |}
  | Some price_text =>
      let price_text := strip price_text in
      let negotiable := contains (lit "VB") price_text in
      let price_text := strip (replace (lit "VB") [] price_text) in
      let amount :=
        strip (replace (lit ",") (lit ".")
                 (replace (lit ".") [] (replace [euro] [] price_text))) in
      {| amount := amount; currency := [euro]; negotiable := negotiable |}
  end.

Record SellerDetails := {
  seller_name : option str;
  seller_since : option str;
  seller_type : str;
  seller_badges : list str
}.

(** [_get_seller_details_] assigns to the keys of the dictionary it is
    given; the caller keeps that dictionary when an exception interrupts the
    assignments.  The result is the dictionary as the call leaves it, and
    the exception if one was raised. *)
Definition _get_seller_details_ (soup : BeautifulSoup) (result : SellerDetails)
  : SellerDetails * option exn :=
  match get_element_content soup (lit ".userprofile-vip") None with
  | inl e => (result, Some e)
  | inr name =>
  let result :=
    {| seller_name := name; seller_since := seller_since result;
       seller_type := seller_type result;
       seller_badges := seller_badges result |} in
  match select_one soup (lit ".userprofile-vip-details-text") with
  | inl e => (result, Some e)
  | inr seller_type_element =>
  let result :=
    match seller_type_element with
    | Some el =>
        let seller_type_text := get_text_strip el in
        if contains (lit "Gewerblicher") seller_type_text
        then {| seller_name := seller_name result;
                seller_since := seller_since result;
                seller_type := lit "business";
                seller_badges := seller_badges result |}
        else result
    | None => result
    end in
  let since_selector :=
    lit ".userprofile-vip-details-text:has-text('Aktiv seit')" in
  match get_element_content soup since_selector None with
  | inl e => (result, Some e)
  | inr since =>
  let result :=
    match since with
    | Some ((_ :: _) as text) =>
        {| seller_name := seller_name result;
           seller_since := Some (strip (replace (lit "Aktiv seit ") [] text));
           seller_type := seller_type result;
           seller_badges := seller_badges result |}
    | _ => result
    end in
  let badges_selector := lit ".userprofile-vip-badges .userbadge-tag" in
  match get_elements_content soup badges_selector with
  | inl e => (result, Some e)
  | inr badges =>
      ({| seller_name := seller_name result;
          seller_since := seller_since result;
          seller_type := seller_type result;
          seller_badges :=
            map strip
              (filter (fun badge =>
                         negb (str_eqb badge []) &&
                         negb (str_eqb (strip badge) []))
                      badges) |},
       None)
  end end end end.

(** The handler of [get_seller_details] prints the exception and goes on to
    [return result]. *)
Definition get_seller_details (soup : BeautifulSoup) : Exc SellerDetails :=
  let result :=
    {| seller_name := None; seller_since := None;
       seller_type := lit "private"; seller_badges := [] |} in
  let '(result, raised) := _get_seller_details_ soup result in
  try_except
    (match raised with Some e => raise e | None => ret result end)
    (fun _ => ret result).

(** A [dict] with string keys, in insertion order: assigning to a key that
    is present replaces its value in place. *)
Fixpoint dict_set (d : list (str * str)) (k v : str) : list (str * str) :=
  match d with
  | [] => [(k, v)]
  | (k', v') :: rest =>
      if str_eqb k' k then (k, v) :: rest else (k', v') :: dict_set rest k v
  end.

Definition get_details (soup : BeautifulSoup) : Exc (list (str * str)) :=
  let details : list (str * str) := [] in
  try_except
    (detail_items <-
       select soup (lit "#viewad-details .addetailslist--detail") ;;
     ret (fold_left
            (fun details item =>
               let label_element :=
                 find_class item (lit "addetailslist--detail--label") in
               let value_element :=
                 find_class item (lit "addetailslist--detail--value") in
               match label_element, value_element with
               | Some l, Some v =>
                   dict_set details (get_text_strip l) (get_text_strip v)
               | _, _ => details
               end)
            detail_items details))
    (fun _ => ret details).

Definition get_features (soup : BeautifulSoup) : Exc (list str) :=
  let features : list str := [] in
  try_except
    (feature_elements <-
       select soup (lit "#viewad-configuration .checktaglist .checktag") ;;
     ret (fold_left
            (fun features feature =>
               match get_text_strip feature with
               | [] => features
               | (_ :: _) as feature_text => features ++ [feature_text]
               end)
            feature_elements features))
    (fun _ => ret features).

Record Location := { zip : str; city : str; state : str }.

Definition get_location (soup : BeautifulSoup) : Exc Location :=
  location_text <- get_element_content soup (lit "#viewad-locality") None ;;
  match location_text with
  | Some ((_ :: _) as location_text) =>
      let location_parts := split_ws location_text in
      match location_parts with
      | [] => raise (IndexError (lit "list index out of range"))
      | zip_code :: rest =>
          ret {| zip := zip_code; city := join (lit " ") rest; state := [] |}
      end
  | _ => ret {| zip := []; city := []; state := [] |}
  end.

Record ExtraInfo := { created_at : option str; extra_views : option str }.

Definition get_extra_info (soup : BeautifulSoup) : Exc ExtraInfo :=
  let result := {| created_at := None; extra_views := Some (lit "0") |} in
  match select_one soup (lit "#viewad-extra-info > div:nth-child(1) > span") with
  | inl _ => ret result
  | inr date_element =>
      let result :=
        match date_element with
        | Some el =>
            {| created_at := Some (get_text_strip el);
               extra_views := extra_views result |}
        | None => result
        end in
      match select_one soup (lit "#viewad-cntr-num") with
      | inl _ => ret result
      | inr views_element =>
          ret match views_element with
              | Some el =>
                  {| created_at := created_at result;
                     extra_views := Some (get_text_strip el) |}
              | None => result
              end
      end
  end.

End kleinanzeigen.

(** ** [utils/error_handling.py] and [utils/performance.py]

    These two modules are not part of the sources at hand.  Their data and
    the operations the scraper calls are given here as the design document
    describes them; the error classifier and the context manager are taken
    as parameters of the scraper (record [ErrorHandling]). *)

Module utils.
Import Py.

(** Modelled from the spec: the severity enumeration of
    [utils.error_handling] (section 3, "severity (enum: LOW, MEDIUM,
    HIGH)"); the class [ErrorSeverity] itself is missing. *)
Inductive ErrorSeverity := LOW | MEDIUM | HIGH.

(** Modelled from the spec: the category enumeration of the missing
    [utils.error_handling] (section 3, "category (enum: HTTP_STATUS, TIMEOUT,
    NETWORK, PARSING, UNKNOWN)"). *)
Inductive ErrorCategory := HTTP_STATUS | TIMEOUT | NETWORK | PARSING | UNKNOWN.

(** Modelled from the spec: the request context of the missing
    [utils.error_handling], with the keyword arguments
    [error_handling_context] is called with and the attribute
    [retry_attempt] the scraper assigns ([None] until it does). *)
Record ErrorContext := {
  operation : str;
  ctx_listing_id : str;
  ctx_url : str;
  retry_attempt : option nat
}.

(** Modelled from the spec: the [StructuredError] of the missing
    [utils.error_handling] (sections 2 and 3), with the four attributes the
    scraper reads and the retryability the classifier decides. *)
Record StructuredError := {
  category : ErrorCategory;
  severity : ErrorSeverity;
  message : str;
  se_recovery_suggestions : list str;
  retryable : bool
}.

(** Modelled from the spec: a [Warning] of the missing
    [utils.error_handling] (section 3: message, severity, affected items,
    impact description).  Its context is the one [ErrorContext] object of the
    request, which every warning shares; it is kept in the scraper's state. *)
Record Warning := {
  w_message : str;
  w_severity : ErrorSeverity;
  affected_items : list str;
  impact_description : str
}.

(** Modelled from the spec: the [WarningManager] of the missing
    [utils.error_handling] (section 4.3): [add_warning] appends to an
    ordered sequence, [get_warnings] returns that sequence,
    [get_user_friendly_messages] the message strings, [get_warning_summary]
    the counts by severity. *)
Definition WarningManager := list Warning.

(** Modelled from the spec: [add_warning] of the missing [WarningManager]
    appends the warning at the end of the sequence (section 4.3). *)
Definition add_warning (wm : WarningManager) (msg : str) (sev : ErrorSeverity)
           (items : list str) (impact : str) : WarningManager :=
  wm ++ [{| w_message := msg; w_severity := sev; affected_items := items;
            impact_description := impact |}].

(** Modelled from the spec: [get_warnings] of the missing
    [WarningManager] returns the sequence (section 4.3). *)
Definition get_warnings (wm : WarningManager) : list Warning := wm.

(** Modelled from the spec: [get_user_friendly_messages] of the missing
    [WarningManager] returns only the message strings (section 4.3). *)
Definition get_user_friendly_messages (wm : WarningManager) : list str :=
  map w_message wm.

Definition is_severity (s : ErrorSeverity) (w : Warning) : bool :=
  match s, w_severity w with
  | LOW, LOW | MEDIUM, MEDIUM | HIGH, HIGH => true
  | _, _ => false
  end.

(** Modelled from the spec: [get_warning_summary] of the missing
    [WarningManager] returns the counts grouped by severity
    (section 4.3). *)
Record WarningSummary := { low : nat; medium : nat; high : nat }.

Definition get_warning_summary (wm : WarningManager) : WarningSummary :=
  {| low := List.length (filter (is_severity LOW) wm);
     medium := List.length (filter (is_severity MEDIUM) wm);
     high := List.length (filter (is_severity HIGH) wm) |}.

(** Modelled from the spec: the [PageMetrics] of the missing
    [utils.performance] (section 3, "AttemptMetric"), with the keyword
    arguments the scraper passes, the two timestamps apart. *)
Record PageMetrics := {
  page_number : nat;
  pm_url : str;
  pm_success : bool;
  pm_retry_count : nat;
  error_message : option str;
  results_count : nat;
  pm_error_category : option str;
  warning_count : nat
}.

(** Modelled from the spec: the [RequestMetrics] snapshot of the missing
    [utils.performance] (sections 3 and 4.4), the times apart: the success
    rate is successful attempts over total attempts on a scale of 0 to 100,
    and 100 when there is no attempt. *)
Record RequestMetrics := {
  total_pages : nat;
  successful_pages : nat;
  success_rate : Q;
  total_warnings : nat
}.

(** Modelled from the spec: the missing [PerformanceTracker]
    (section 4.4): [add_page_metric] appends a metric, [get_request_metrics]
    computes the snapshot anew from the metrics recorded so far. *)
Definition PerformanceTracker := list PageMetrics.

Definition add_page_metric (t : PerformanceTracker) (m : PageMetrics)
  : PerformanceTracker := t ++ [m].

Definition get_request_metrics (t : PerformanceTracker) : RequestMetrics :=
  let total := List.length t in
  let ok := List.length (filter pm_success t) in
  {| total_pages := total;
     successful_pages := ok;
     success_rate :=
       match total with
       | O => 100%Q
       | S _ => (100 * inject_Z (Z.of_nat ok) / inject_Z (Z.of_nat total))%Q
       end;
     total_warnings := list_sum (map warning_count t) |}.

End utils.

(** ** [scrapers/inserat.py] *)

Module scraper.
Import Py kleinanzeigen utils.
Local Open Scope exc_scope.

(** [str(n)] for an integer. *)
Definition str_of_Z (n : Z) : str :=
  lit (DecimalString.NilZero.string_of_int (Z.to_int n)).

(** The [detail] of an [HTTPException]: a string, or the dictionary built at
    the end of [get_inserate_details_optimized]. *)
Inductive Detail :=
| DetailStr (s : str)
| DetailError (error category severity : str)
              (recovery_suggestions : list str).

(** What an [except Exception] of the scraper or of the endpoint can
    receive: FastAPI's [HTTPException], or an exception of the interpreter
    or of a library. *)
Inductive exn :=
| HTTPException (status_code : Z) (detail : Detail)
| PyException (e : Py.exn).

(** What [await client.get(url, timeout=20)] followed by
    [response.raise_for_status()] and the parsing of [response.text] comes
    to: the request raises; or the response has an error status, for which
    [raise_for_status] raises [httpx.HTTPStatusError]; or the document is
    there. *)
Inductive FetchOutcome :=
| GetRaises (e : Py.exn)
| StatusError (status_code : Z) (reason_phrase : str)
| Document (soup : BeautifulSoup).

(** An [httpx.AsyncClient], as what a [get] on it gives. *)
Definition AsyncClient := str -> FetchOutcome.

Record ListingRecord := {
  id : option str;
  categories : list str;
  title : str;
  status : str;
  price : Price;
  delivery : option str;
  location : Location;
  views : str;
  description : option str;
  images : list str;
  details : list (str * str);
  features : list str;
  seller : SellerDetails;
  extra_info : ExtraInfo
}.

(** The statements of [get_inserate_details_httpx] between the parsing of
    the document and the [return], lines 24 to 69. *)
Definition extract (soup : BeautifulSoup) : Exc ListingRecord :=
  ad_id <- get_element_content soup
             (lit "#viewad-ad-id-box > ul > li:nth-child(2)")
             (Some (lit "[ERROR] Ad ID not found")) ;;
  cats <- get_elements_content soup (lit ".breadcrump-link") ;;
  let categories :=
    map strip (filter (fun c => negb (str_eqb (strip c) [])) cats) in
  title <- get_element_content soup (lit "#viewad-title")
             (Some (lit "[ERROR] Title not found")) ;;
  price_element <- get_element_content soup (lit "#viewad-price") None ;;
  let price := parse_price price_element in
  views <- get_element_content soup (lit "#viewad-cntr-num") None ;;
  description <- get_element_content soup (lit "#viewad-description-text")
                   None ;;
  let description :=
    match description with
    | Some ((_ :: _) as d) =>
        let d :=
          strip (sub_runs (fun c => (c =? 32) || (c =? 9))%N (lit " ")
                          false d) in
        Some (sub_runs (fun c => (c =? 10)%N) [10%N] false d)
    | other => other
    end in
  images <- get_image_sources soup (lit "#viewad-image") ;;
  seller_details <- get_seller_details soup ;;
  details <- get_details soup ;;
  features <- get_features soup ;;
  shipping_text <- get_element_content soup
                     (lit ".boxedarticle--details--shipping") None ;;
  let shipping :=
    match shipping_text with
    | Some ((_ :: _) as t) =>
        if contains (lit "Nur Abholung") t then Some (lit "pickup")
        else if contains (lit "Versand") t then Some (lit "shipping")
        else None
    | _ => None
    end in
  location <- get_location soup ;;
  extra_info <- get_extra_info soup ;;
  let status := lit "active" in
  let sep := (32 :: bullet :: [32])%N in
  title <- match title with
           | Some t =>
               ret (if contains sep t
                    then strip (last (split sep t) [])
                    else strip t)
           | None =>
               raise (TypeError
                        (lit "argument of type 'NoneType' is not iterable"))
           end ;;
  ret {| id := ad_id;
         categories := categories;
         title := title;
         status := status;
         price := price;
         delivery := shipping;
         location := location;
         views := match views with
                  | Some ((_ :: _) as v) => v
                  | _ => lit "0"
                  end;
         description := description;
         images := images;
         details := details;
         features := features;
         seller := seller_details;
         extra_info := extra_info |}.

(** The selectors that [extract] and [get_location] hand to the engine
    outside of the [try] blocks of the helpers. *)
Definition direct_selectors : list str :=
  [ lit "#viewad-ad-id-box > ul > li:nth-child(2)";
    lit ".breadcrump-link";
    lit "#viewad-title";
    lit "#viewad-price";
    lit "#viewad-cntr-num";
    lit "#viewad-description-text";
    lit "#viewad-image";
    lit ".boxedarticle--details--shipping";
    lit "#viewad-locality" ].

Definition get_inserate_details_httpx (url : str) (client : AsyncClient)
  : exn + ListingRecord :=
  match client url with
  | StatusError status_code reason_phrase =>
      inl (HTTPException status_code
             (DetailStr (lit "Could not fetch ad details from source: "
                         ++ reason_phrase)))
  | GetRaises e =>
      inl (HTTPException 500 (DetailStr (exn_str e)))
  | Document soup =>
      match extract soup with
      | inr record => inr record
      | inl e => inl (HTTPException 500 (DetailStr (exn_str e)))
      end
  end.

(** [asyncio.trandom.uniform(0, 1)]: the module [asyncio] has no attribute
    [trandom], so the evaluation raises [AttributeError] at the attribute
    access, before [uniform] is called. *)
Definition asyncio_trandom_uniform (a b : Q) : Exc Q :=
  raise (AttributeError (lit "module 'asyncio' has no attribute 'trandom'")).

(** That exception, as the [except Exception] handlers above the loop see
    it. *)
Definition no_trandom : exn :=
  PyException
    (AttributeError (lit "module 'asyncio' has no attribute 'trandom'")).

(** The response dictionary; a key that a response does not have is
    [None], and [data] is [None] for Python's [None] too. *)
Record Response := {
  success : bool;
  data : option ListingRecord;
  error : option str;
  error_category : option str;
  error_severity : option str;
  recovery_suggestions : option (list str);
  performance_metrics : RequestMetrics;
  warnings : option (list str);
  detailed_warnings : option (list Warning);
  warning_summary : option WarningSummary
}.

(** The objects of one call of [get_inserate_details_optimized], and what
    the call did to its environment: the number of calls of
    [get_inserate_details_httpx] made so far and the arguments of the
    [asyncio.sleep] calls, oldest first. *)
Record State := {
  warning_manager : WarningManager;
  tracker : PerformanceTracker;
  context : ErrorContext;
  last_structured_error : option StructuredError;
  fetches : nat;
  sleeps : list Q
}.

(** How a run of the [for] loop ends. *)
Inductive LoopExit :=
| Return (response : Response)
| Raise (e : exn)
| Exhausted.

(** The part of [utils.error_handling] the scraper is written against:
    the classifier [error_ctx.handle_exception], the predicate
    [structured_error.should_retry], the [value] of the two enumerations,
    and what [error_handling_context] does with an exception that leaves its
    block ([None]: it swallows it, [Some e']: [e'] leaves the [with]
    statement). *)
Record ErrorHandling := {
  handle_exception : ErrorContext -> exn -> str -> StructuredError;
  should_retry : StructuredError -> Z -> bool;
  category_value : ErrorCategory -> str;
  severity_value : ErrorSeverity -> str;
  context_exit : exn -> option exn
}.

Section Orchestrator.

(** The collaborators, and the network: [network n] is the client as the
    [n]-th request (from 0) finds it. *)
Variable eh : ErrorHandling.
Variable network : nat -> AsyncClient.

Variable listing_id : str.
Variable retry_count : Z.

Definition url : str :=
  lit "https://www.kleinanzeigen.de/s-anzeige/" ++ listing_id.

Definition warn (st : State) (msg : str) (sev : ErrorSeverity)
           (items : list str) (impact : str) : State :=
  {| warning_manager := add_warning (warning_manager st) msg sev items impact;
     tracker := tracker st;
     context := context st;
     last_structured_error := last_structured_error st;
     fetches := fetches st;
     sleeps := sleeps st |}.

Definition record_metric (st : State) (m : PageMetrics) : State :=
  {| warning_manager := warning_manager st;
     tracker := add_page_metric (tracker st) m;
     context := context st;
     last_structured_error := last_structured_error st;
     fetches := fetches st;
     sleeps := sleeps st |}.

Definition count_fetch (st : State) : State :=
  {| warning_manager := warning_manager st;
     tracker := tracker st;
     context := context st;
     last_structured_error := last_structured_error st;
     fetches := S (fetches st);
     sleeps := sleeps st |}.

(** [error_ctx.context.retry_attempt = attempt], then
    [last_structured_error = structured_error]. *)
Definition set_retry_attempt (st : State) (attempt : nat) : State :=
  {| warning_manager := warning_manager st;
     tracker := tracker st;
     context :=
       {| operation := operation (context st);
          ctx_listing_id := ctx_listing_id (context st);
          ctx_url := ctx_url (context st);
          retry_attempt := Some attempt |};
     last_structured_error := last_structured_error st;
     fetches := fetches st;
     sleeps := sleeps st |}.

Definition set_last_error (st : State) (e : StructuredError) : State :=
  {| warning_manager := warning_manager st;
     tracker := tracker st;
     context := context st;
     last_structured_error := Some e;
     fetches := fetches st;
     sleeps := sleeps st |}.

Definition sleep (st : State) (wait_time : Q) : State :=
  {| warning_manager := warning_manager st;
     tracker := tracker st;
     context := context st;
     last_structured_error := last_structured_error st;
     fetches := fetches st;
     sleeps := sleeps st ++ [wait_time] |}.

(** The [response] of the [try] branch, lines 125 to 136. *)
Definition success_response (st : State) (details : ListingRecord)
  : Response :=
  let request_metrics := get_request_metrics (tracker st) in
  let warnings := get_warnings (warning_manager st) in
  let some_warnings := negb (Nat.eqb (List.length warnings) 0) in
  {| success := true;
     data := Some details;
     error := None;
     error_category := None;
     error_severity := None;
     recovery_suggestions := None;
     performance_metrics := request_metrics;
     warnings :=
       if some_warnings
       then Some (get_user_friendly_messages (warning_manager st))
       else None;
     detailed_warnings := if some_warnings then Some warnings else None;
     warning_summary :=
       if some_warnings
       then Some (get_warning_summary (warning_manager st))
       else None |}.

(** The [response] of the [except] branch, lines 174 to 188. *)
Definition failure_response (st : State) (structured_error : StructuredError)
  : Response :=
  let request_metrics := get_request_metrics (tracker st) in
  let warnings := get_warnings (warning_manager st) in
  let some_warnings := negb (Nat.eqb (List.length warnings) 0) in
  {| success := false;
     data := None;
     error := Some (message structured_error);
     error_category :=
       Some (category_value eh (category structured_error));
     error_severity :=
       Some (severity_value eh (severity structured_error));
     recovery_suggestions := Some (se_recovery_suggestions structured_error);
     performance_metrics := request_metrics;
     warnings :=
       if some_warnings
       then Some (get_user_friendly_messages (warning_manager st))
       else None;
     detailed_warnings := if some_warnings then Some warnings else None;
     warning_summary := None |}.

(** The [for] loop over [range(retry_count + 1)], lines 96 to 190; the
    first argument is what is left of the range. *)
Fixpoint attempt_loop (attempts : list nat) (st : State) : State * LoopExit :=
  match attempts with
  | [] => (st, Exhausted)
  | attempt :: rest =>
      let client := network (fetches st) in
      let st := count_fetch st in
      match get_inserate_details_httpx url client with
      | inr details =>
          let st :=
            if negb (truthy (id details))
            then warn st
                   (lit "Incomplete data extracted for listing "
                    ++ listing_id)
                   MEDIUM [listing_id]
                   (lit "Some listing information may be missing")
            else st in
          let page_metric :=
            {| page_number := 1;
               pm_url := url;
               pm_success := true;
               pm_retry_count := attempt;
               error_message := None;
               results_count := 1;
               pm_error_category := None;
               warning_count :=
                 List.length (get_warnings (warning_manager st)) |} in
          let st := record_metric st page_metric in
          (st, Return (success_response st details))
      | inl e =>
          let st := set_retry_attempt st attempt in
          let structured_error :=
            handle_exception eh (context st) e (lit "detail_fetch_httpx") in
          let st := set_last_error st structured_error in
          if (Z.of_nat attempt <? retry_count)%Z
             && should_retry eh structured_error retry_count
          then
            let cat := category_value eh (category structured_error) in
            let st :=
              warn st
                (lit "Retrying listing " ++ listing_id ++ lit " after "
                 ++ cat ++ lit " error (attempt "
                 ++ str_of_Z (Z.of_nat attempt + 1) ++ lit "/"
                 ++ str_of_Z (retry_count + 1) ++ lit ")")
                MEDIUM [listing_id]
                (lit "Temporary delay before retry due to " ++ cat
                 ++ lit " error") in
            match asyncio_trandom_uniform 0 1 with
            | inl raised => (st, Raise (PyException raised))
            | inr jitter =>
                let wait_time :=
                  (inject_Z (2 ^ Z.of_nat attempt) + jitter)%Q in
                let st := sleep st wait_time in
                attempt_loop rest st
            end
          else
            let error_msg :=
              lit "Failed after " ++ str_of_Z (Z.of_nat attempt + 1)
              ++ lit " attempts: " ++ message structured_error in
            let page_metric :=
              {| page_number := 1;
                 pm_url := url;
                 pm_success := false;
                 pm_retry_count := attempt;
                 error_message := Some error_msg;
                 results_count := 0;
                 pm_error_category :=
                   Some (category_value eh (category structured_error));
                 warning_count :=
                   List.length (get_warnings (warning_manager st)) |} in
            let st := record_metric st page_metric in
            (st, Return (failure_response st structured_error))
      end
  end.

(** The state when the loop is entered: a new [WarningManager], a new
    [PerformanceTracker], the context of [error_handling_context]. *)
Definition initial_state : State :=
  {| warning_manager := [];
     tracker := [];
     context :=
       {| operation := lit "fetch_listing_details_httpx";
          ctx_listing_id := listing_id;
          ctx_url := url;
          retry_attempt := None |};
     last_structured_error := None;
     fetches := 0;
     sleeps := [] |}.

(** An exception reaches the end of the [with error_handling_context]
    block: the context manager lets an exception out, or swallows it, and
    then the function comes to its end and returns [None]. *)
Definition leave_context (e : exn) : exn + option Response :=
  match context_exit eh e with
  | Some e' => inl e'
  | None => inr None
  end.

(** [range(retry_count + 1)] *)
Definition attempts_range : list nat := seq 0 (Z.to_nat (retry_count + 1)).

(** The result is what the call gives its caller ([inr (Some response)] for
    a returned dictionary) with the final state of the call's objects. *)
Definition get_inserate_details_optimized
  : State * (exn + option Response) :=
  let '(st, how) := attempt_loop attempts_range initial_state in
  match how with
  | Return response => (st, inr (Some response))
  | Raise e => (st, leave_context e)
  | Exhausted =>
      match last_structured_error st with
      | Some last =>
          (st, leave_context
                 (HTTPException 500
                    (DetailError (message last)
                       (category_value eh (category last))
                       (severity_value eh (severity last))
                       (se_recovery_suggestions last))))
      | None =>
          (st, leave_context
                 (HTTPException 500
                    (DetailStr (lit "Unexpected error in retry loop"))))
      end
  end.

End Orchestrator.

End scraper.

(** ** [routers/inserat.py] *)

Module router.
Import Py kleinanzeigen utils scraper.

(** [clean_response]; the metrics keep the success rate, which the
    endpoint reads with [metrics.get("success_rate", 100)]. *)
Record CleanResponse := {
  c_success : bool;
  c_data : option ListingRecord;
  c_success_rate : Q
}.

Section Endpoint.

Variable eh : ErrorHandling.
Variable network : nat -> AsyncClient.

(** The handlers [except HTTPException: raise] and [except Exception] of
    the endpoint. *)
Definition reraise (e : exn) : exn :=
  match e with
  | HTTPException _ _ => e
  | PyException _ => HTTPException 500 (DetailStr (lit "Internal server error"))
  end.

(** The body of the endpoint [GET /inserat/{id}]; the rate limiter that
    decorates it acts before the body is entered.  Next to what the request
    gets, the result lists the calls of [get_inserate_details_optimized]
    made for it, each with its arguments (the retry count is the default,
    2). *)
Definition get_inserat (id : str) : list (str * Z) * (exn + CleanResponse) :=
  if str_eqb id [] || str_eqb (strip id) []
  then ([], inl (HTTPException 400 (DetailStr (lit "Invalid listing ID"))))
  else
    let called := [(id, 2%Z)] in
    match snd (get_inserate_details_optimized eh network id 2) with
    | inl e => (called, inl (reraise e))
    | inr None =>
        (called,
         inl (reraise
                (PyException
                   (AttributeError
                      (lit "'NoneType' object has no attribute 'get'")))))
    | inr (Some response) =>
        if negb (success response)
        then (called,
              inl (reraise
                     (HTTPException 500
                        (DetailStr (lit "Failed to fetch listing details")))))
        else (called,
              inr {| c_success := success response;
                     c_data := data response;
                     c_success_rate :=
                       success_rate (performance_metrics response) |})
    end.

End Endpoint.

End router.

(** ** Concrete documents, networks and collaborators

    The inputs at which the properties below are instantiated. *)

Module inputs.
Import Py kleinanzeigen utils scraper router.

(** The price text of the first scenario, [1.234,56 € VB]. *)
Definition price_text_A : str := lit "1.234,56 " ++ euro :: lit " VB".

(** A document in which no selector matches anything. *)
Definition empty_document : BeautifulSoup := fun _ => inr [].

(** What [extract] makes of such a document. *)
Definition default_record : ListingRecord :=
  {| id := Some (lit "[ERROR] Ad ID not found");
     categories := [];
     title := lit "[ERROR] Title not found";
     status := lit "active";
     price := {| amount := lit "0"; currency := [euro];
                 negotiable := false |};
     delivery := None;
     location := {| zip := []; city := []; state := [] |};
     views := lit "0";
     description := None;
     images := [];
     details := [];
     features := [];
     seller := {| seller_name := None; seller_since := None;
                  seller_type := lit "private"; seller_badges := [] |};
     extra_info := {| created_at := None; extra_views := Some (lit "0") |} |}.

Definition img (src : string) : Node :=
  NTag (lit "img") [] [(lit "src", lit src)] [].

(** A document whose image selector matches two elements. *)
Definition two_images_document : BeautifulSoup :=
  fun selector =>
    if str_eqb selector (lit "#viewad-image")
    then inr [img "https://img.example/1.jpg"; img "https://img.example/2.jpg"]
    else inr [].

(** A document whose identifier element is there and empty. *)
Definition no_id_document : BeautifulSoup :=
  fun selector =>
    if str_eqb selector (lit "#viewad-ad-id-box > ul > li:nth-child(2)")
    then inr [NTag (lit "li") [] [] [NString (lit "  ")]]
    else inr [].

(** Modelled from the spec: the classifier of the missing
    [utils.error_handling], by the rules of section 4.2 for a failure that
    carries a status (HTTP_STATUS; MEDIUM below 500 and HIGH from 500 on;
    retryable for 5xx and 429) and for any other one (UNKNOWN, HIGH, not
    retryable), with a context manager that lets every exception
    through. *)
Definition spec_handling : ErrorHandling :=
  {| handle_exception := fun _ e _ =>
       match e with
       | HTTPException status_code d =>
           {| category := HTTP_STATUS;
              severity := if (500 <=? status_code)%Z then HIGH else MEDIUM;
              message := match d with
                         | DetailStr s => s
                         | DetailError m _ _ _ => m
                         end;
              se_recovery_suggestions := [];
              retryable :=
                (500 <=? status_code)%Z || (status_code =? 429)%Z |}
       | PyException e =>
           {| category := UNKNOWN; severity := HIGH; message := exn_str e;
              se_recovery_suggestions := []; retryable := false |}
       end;
     should_retry := fun se _ => retryable se;
     category_value := fun c =>
       match c with
       | HTTP_STATUS => lit "http_status"
       | TIMEOUT => lit "timeout"
       | NETWORK => lit "network"
       | PARSING => lit "parsing"
       | UNKNOWN => lit "unknown"
       end;
     severity_value := fun s =>
       match s with
       | LOW => lit "low"
       | MEDIUM => lit "medium"
       | HIGH => lit "high"
       end;
     context_exit := fun e => Some e |}.

(** What [extract] makes of [no_id_document]: the identifier is the empty
    string. *)
Definition no_id_record : ListingRecord :=
  {| id := Some [];
     categories := categories default_record;
     title := title default_record;
     status := status default_record;
     price := price default_record;
     delivery := delivery default_record;
     location := location default_record;
     views := views default_record;
     description := description default_record;
     images := images default_record;
     details := details default_record;
     features := features default_record;
     seller := seller default_record;
     extra_info := extra_info default_record |}.

(** A document whose image selector matches two elements, the first of
    them without a [src]. *)
Definition lazy_first_image_document : BeautifulSoup :=
  fun selector =>
    if str_eqb selector (lit "#viewad-image")
    then inr [NTag (lit "img") [] [(lit "data-src", lit "lazy.jpg")] [];
              img "https://img.example/2.jpg"]
    else inr [].

(** Networks: every request answered with the same status, or with the
    same document. *)
Definition always_status (status_code : Z) (reason : string)
  : nat -> AsyncClient :=
  fun _ _ => StatusError status_code (lit reason).

Definition always_document (soup : BeautifulSoup) : nat -> AsyncClient :=
  fun _ _ => Document soup.

(** A network that answers the first request with the status 503 and
    every later one with the document. *)
Definition unavailable_then (soup : BeautifulSoup) : nat -> AsyncClient :=
  fun n _ =>
    match n with
    | O => StatusError 503 (lit "Service Unavailable")
    | S _ => Document soup
    end.

End inputs.

(** ** Dictionary lookup and further documents *)

Module samples.
Import Py kleinanzeigen utils scraper router inputs.

(** [d.get(k)] on a dictionary in insertion order. *)
Fixpoint dict_get (d : list (str * str)) (k : str) : option str :=
  match d with
  | [] => None
  | (k', v) :: rest => if str_eqb k' k then Some v else dict_get rest k
  end.

Definition text_tag (name : string) (classes : list string) (text : string)
  : Node :=
  NTag (lit name) (map lit classes) [] [NString (lit text)].

(** An engine that rejects the selector of the seller's "active since"
    line, as soupsieve does with the pseudo-class [:has-text], on a page
    with a business seller and two badges. *)
Definition seller_document : BeautifulSoup :=
  fun selector =>
    if str_eqb selector (lit ".userprofile-vip")
    then inr [text_tag "a" [] " Lampenhaus "]
    else if str_eqb selector (lit ".userprofile-vip-details-text")
    then inr [text_tag "span" [] "Gewerblicher Nutzer"]
    else if str_eqb selector
              (lit ".userprofile-vip-details-text:has-text('Aktiv seit')")
    then inl {| exn_class := lit "SelectorSyntaxError";
                exn_str := lit "':has-text' was not found" |}
    else if str_eqb selector (lit ".userprofile-vip-badges .userbadge-tag")
    then inr [text_tag "span" [] "TOP"; text_tag "span" [] "Freundlich"]
    else inr [].

Definition detail_item (label value : string) : Node :=
  NTag (lit "li") [lit "addetailslist--detail"] []
    [ text_tag "span" ["addetailslist--detail--label"%string] label;
      text_tag "span" ["addetailslist--detail--value"%string] value ].

(** Two detail items with the same label, and one between them. *)
Definition repeated_details : list Node :=
  [detail_item "Art" "Lampe"; detail_item "Farbe" "rot"].

Definition details_document : BeautifulSoup :=
  fun selector =>
    if str_eqb selector (lit "#viewad-details .addetailslist--detail")
    then inr (repeated_details ++ [detail_item "Art" "Leuchte"])
    else inr [].

Definition locality_document : BeautifulSoup :=
  fun selector =>
    if str_eqb selector (lit "#viewad-locality")
    then inr [text_tag "span" [] " 10115  Berlin - Mitte "]
    else inr [].

(** A document with an identifier and nothing else. *)
Definition id_document : BeautifulSoup :=
  fun selector =>
    if str_eqb selector (lit "#viewad-ad-id-box > ul > li:nth-child(2)")
    then inr [text_tag "li" [] "123"]
    else inr [].

End samples.

(** * Properties *)

Import Py kleinanzeigen utils scraper router inputs samples.

(** Inversion of a [bind] that returned. *)
Lemma bind_inr {A B} (m : Exc A) (k : A -> Exc B) (b : B) :
  bind m k = inr b -> exists a, m = inr a /\ k a = inr b.
Proof.
  destruct m as [e|a]; simpl; [discriminate|]. intros H. now exists a.
Qed.

Ltac bind_inv H :=
  let a := fresh "v" in
  let E := fresh "E" in
  apply bind_inr in H; destruct H as [a [E H]].

(** ** Strings *)

Lemma lstrip_all_space (s : str) :
  forallb isspace s = true -> lstrip s = [].
Proof.
  induction s as [|c r IH]; simpl; [reflexivity|].
  intros H. apply andb_prop in H. destruct H as [Hc Hr].
  rewrite Hc. now apply IH.
Qed.

Lemma strip_all_space (s : str) :
  forallb isspace s = true -> strip s = [].
Proof.
  intros H. unfold strip, rstrip.
  rewrite (lstrip_all_space s H). reflexivity.
Qed.

Lemma lstrip_suffix (s : str) : exists ws, s = ws ++ lstrip s /\
                                           forallb isspace ws = true.
Proof.
  induction s as [|c r [ws [E F]]]; simpl.
  - now exists [].
  - destruct (isspace c) eqn:Hc.
    + exists (c :: ws). simpl. rewrite Hc, F. split; [now f_equal|reflexivity].
    + now exists [].
Qed.

Lemma forallb_rev {A} (p : A -> bool) (l : list A) :
  forallb p (rev l) = forallb p l.
Proof.
  induction l as [|a l IH]; simpl; [reflexivity|].
  rewrite forallb_app, IH. simpl. rewrite andb_true_r. apply andb_comm.
Qed.

(** A string that [strip] empties is made of whitespace: the guard of the
    endpoint rejects the blank identifiers and no others. *)
Lemma strip_nil_all_space (s : str) :
  strip s = [] -> forallb isspace s = true.
Proof.
  unfold strip, rstrip. intros H.
  destruct (lstrip_suffix s) as [ws [E F]].
  destruct (lstrip_suffix (rev (lstrip s))) as [ws' [E' F']].
  apply (f_equal (@rev N)) in H. rewrite rev_involutive in H. simpl in H.
  rewrite H, app_nil_r in E'.
  apply (f_equal (@rev N)) in E'. rewrite rev_involutive in E'.
  rewrite E, forallb_app, F, E', forallb_rev, F'. reflexivity.
Qed.

Lemma lstrip_head (s : str) (c : N) (r : str) :
  lstrip s = c :: r -> isspace c = false.
Proof.
  induction s as [|a s IH]; simpl; [discriminate|].
  destruct (isspace a) eqn:Ha; [exact IH|].
  intros H. injection H as <- _. exact Ha.
Qed.

Lemma lstrip_ends (l : str) (c : N) :
  isspace c = false -> exists l', lstrip (l ++ [c]) = l' ++ [c].
Proof.
  intros Hc. induction l as [|a l [l' IH]]; simpl.
  - rewrite Hc. now exists [].
  - destruct (isspace a); [now exists l'|now exists (a :: l)].
Qed.

Lemma rstrip_head (c : N) (r : str) :
  isspace c = false -> exists r', rstrip (c :: r) = c :: r'.
Proof.
  intros Hc. unfold rstrip. simpl.
  destruct (lstrip_ends (rev r) c Hc) as [l' ->].
  exists (rev l'). now rewrite rev_app_distr.
Qed.

(** A stripped string does not begin with whitespace. *)
Lemma strip_head (s : str) (c : N) (r : str) :
  strip s = c :: r -> isspace c = false.
Proof.
  unfold strip. destruct (lstrip s) as [|a t] eqn:E; [discriminate|].
  pose proof (lstrip_head s a t E) as Ha.
  destruct (rstrip_head a t Ha) as [r' ->].
  intros H. injection H as <- _. exact Ha.
Qed.

Lemma split_ws_from_cur (cur s : str) :
  cur <> [] -> split_ws_from cur s <> [].
Proof.
  revert cur. induction s as [|c s IH]; intros cur Hc; simpl.
  - destruct cur; [contradiction|discriminate].
  - destruct (isspace c).
    + destruct cur; [contradiction|discriminate].
    + apply IH. discriminate.
Qed.

(** [s.split()] has a first piece when [s] begins with a character that is
    not whitespace. *)
Lemma split_ws_head (c : N) (r : str) :
  isspace c = false -> split_ws (c :: r) <> [].
Proof.
  intros Hc. unfold split_ws. simpl. rewrite Hc.
  apply split_ws_from_cur. discriminate.
Qed.

(** ** The extraction helpers *)

(** The text of an element begins with a character that is not whitespace,
    when it is not empty. *)
Lemma get_text_strip_head (n : Node) (c : N) (r : str) :
  get_text_strip n = c :: r -> isspace c = false.
Proof.
  unfold get_text_strip.
  induction (all_strings n) as [|p ps IH]; simpl; [discriminate|].
  destruct (strip p) as [|a t] eqn:E; simpl; [exact IH|].
  intros H. injection H as <- _. now apply strip_head in E.
Qed.

Lemma get_location_returns (soup : BeautifulSoup) (l : list Node) :
  soup (lit "#viewad-locality") = inr l ->
  exists loc, get_location soup = inr loc.
Proof.
  intros H. unfold get_location, get_element_content, select_one, bind.
  rewrite H. cbn [ret].
  destruct (hd_error l) as [el|]; [|eauto].
  destruct (get_text_strip el) as [|c r] eqn:E; [eauto|].
  pose proof (split_ws_head c r (get_text_strip_head el c r E)) as Hs.
  destruct (split_ws (c :: r)); [contradiction|eauto].
Qed.

Lemma get_extra_info_returns (soup : BeautifulSoup) :
  exists x, get_extra_info soup = inr x.
Proof.
  unfold get_extra_info.
  destruct (select_one soup _) as [e|d]; [eauto|].
  destruct (select_one soup _) as [e|v]; eauto.
Qed.


(** C7.  [parse_price] maps the price text "1.234,56 € VB" to the amount
    "1234.56", the currency "€" and negotiable true; it maps an empty price
    text and an absent one ([None]) to the amount "0", the currency "€" and
    negotiable false. *)
Theorem parse_price_scenarios :
  parse_price (Some price_text_A)
  = {| amount := lit "1234.56"; currency := [euro]; negotiable := true |}
  /\ parse_price (Some [])
     = {| amount := lit "0"; currency := [euro]; negotiable := false |}
  /\ parse_price None
     = {| amount := lit "0"; currency := [euro]; negotiable := false |}.
Proof.
  repeat split; vm_compute; reflexivity.
Qed.

Lemma get_image_sources_length (soup : BeautifulSoup) (selector : str)
      (imgs : list str) :
  get_image_sources soup selector = inr imgs -> List.length imgs <= 1.
Proof.
  unfold get_image_sources, select_one, bind, ret.
  destruct (soup selector) as [e|l]; [discriminate|].
  intros H. injection H as <-.
  destruct (hd_error l) as [el|]; [|simpl; lia].
  destruct (attr_lookup (lit "src") (node_attrs el)); simpl; lia.
Qed.

Lemma extract_images (soup : BeautifulSoup) (record : ListingRecord) :
  extract soup = inr record ->
  get_image_sources soup (lit "#viewad-image") = inr (images record).
Proof.
  unfold extract. intros H.
  do 6 bind_inv H.
  apply bind_inr in H. destruct H as [imgs [Ei H]].
  do 7 bind_inv H.
  injection H as <-. exact Ei.
Qed.

(** C10.  [get_image_sources] looks at the first element the selector
    matches and at no other: the list it returns holds the [src] of that
    element when it has one, and is empty when it has none or when nothing
    matches.  So the list has length 0 or 1 whatever the document and the
    selector, and the [images] of every extracted record are that list for
    the image selector: at most one URL, however many images the page
    has. *)
Theorem image_sources_at_most_one (soup : BeautifulSoup) (selector : str) :
  get_image_sources soup selector
  = match soup selector with
    | inl e => inl e
    | inr matches =>
        inr match hd_error matches with
            | Some first =>
                match attr_lookup (lit "src") (node_attrs first) with
                | Some src => [src]
                | None => []
                end
            | None => []
            end
    end
  /\ (forall imgs,
         get_image_sources soup selector = inr imgs -> List.length imgs <= 1)
  /\ (forall record,
         extract soup = inr record ->
         get_image_sources soup (lit "#viewad-image") = inr (images record)
         /\ List.length (images record) <= 1).
Proof.
  split; [|split].
  - unfold get_image_sources, select_one, bind, ret.
    destruct (soup selector) as [e|matches]; [reflexivity|].
    destruct (hd_error matches) as [first|]; [|reflexivity].
    destruct (attr_lookup (lit "src") (node_attrs first)); reflexivity.
  - apply get_image_sources_length.
  - intros record H. apply extract_images in H. split; [exact H|].
    now apply get_image_sources_length in H.
Qed.

Lemma image_sources_at_most_one_witness :
  get_image_sources two_images_document (lit "#viewad-image")
  = inr [lit "https://img.example/1.jpg"]
  /\ get_image_sources lazy_first_image_document (lit "#viewad-image")
     = inr []
  /\ exists record,
      extract two_images_document = inr record
      /\ images record = [lit "https://img.example/1.jpg"]
      /\ List.length (images record) <= 1.
Proof.
  destruct (image_sources_at_most_one two_images_document
              (lit "#viewad-image")) as [Hfirst [_ Hrecord]].
  destruct (image_sources_at_most_one lazy_first_image_document
              (lit "#viewad-image")) as [Hlazy _].
  split; [rewrite Hfirst; reflexivity|].
  split; [rewrite Hlazy; reflexivity|].
  assert (He : extract two_images_document
               = inr {| id := id default_record;
                        categories := categories default_record;
                        title := title default_record;
                        status := status default_record;
                        price := price default_record;
                        delivery := delivery default_record;
                        location := location default_record;
                        views := views default_record;
                        description := description default_record;
                        images := [lit "https://img.example/1.jpg"];
                        details := details default_record;
                        features := features default_record;
                        seller := seller default_record;
                        extra_info := extra_info default_record |})
    by (vm_compute; reflexivity).
  eexists. split; [exact He|]. split; [reflexivity|].
  exact (proj2 (Hrecord _ He)).
Defined.

Lemma get_seller_details_returns (soup : BeautifulSoup) :
  exists s, get_seller_details soup = inr s.
Proof.
  unfold get_seller_details.
  destruct (_get_seller_details_ soup _) as [result [e|]]; simpl; eauto.
Qed.

Lemma get_details_returns (soup : BeautifulSoup) :
  exists d, get_details soup = inr d.
Proof.
  unfold get_details, try_except, bind, select.
  destruct (soup _); simpl; eauto.
Qed.

Lemma get_features_returns (soup : BeautifulSoup) :
  exists f, get_features soup = inr f.
Proof.
  unfold get_features, try_except, bind, select.
  destruct (soup _); simpl; eauto.
Qed.

Lemma extract_finds_nothing (soup : BeautifulSoup) :
  (forall selector, soup selector = inr []) ->
  extract soup = inr default_record.
Proof.
  intros H.
  unfold extract, get_location, get_extra_info, get_features, get_details,
    get_seller_details, _get_seller_details_, get_image_sources,
    get_elements_content, get_element_content, select_one, select.
  rewrite !H. reflexivity.
Qed.

Lemma get_element_content_returns (soup : BeautifulSoup) (selector : str)
      (default : option str) (l : list Node) :
  soup selector = inr l ->
  get_element_content soup selector default
  = inr match hd_error l with
        | Some el => Some (get_text_strip el)
        | None => default
        end.
Proof.
  intros H. unfold get_element_content, select_one, bind. rewrite H.
  reflexivity.
Qed.

Ltac in_selectors :=
  unfold direct_selectors; repeat (first [left; reflexivity | right]).

(** When the engine answers the selectors that are used outside of a [try]
    block, the extraction returns a record, whatever these and the other
    selectors find or do not find. *)
Lemma extract_returns (soup : BeautifulSoup) :
  (forall selector, In selector direct_selectors ->
                    exists l, soup selector = inr l) ->
  exists record, extract soup = inr record.
Proof.
  intros H. unfold extract.
  destruct (H (lit "#viewad-ad-id-box > ul > li:nth-child(2)"))
    as [l1 E1]; [in_selectors|].
  rewrite (get_element_content_returns _ _ _ _ E1). cbn [bind].
  destruct (H (lit ".breadcrump-link")) as [l2 E2]; [in_selectors|].
  unfold get_elements_content at 1, select. rewrite E2. cbn [bind ret].
  destruct (H (lit "#viewad-title")) as [l3 E3]; [in_selectors|].
  rewrite (get_element_content_returns _ _ _ _ E3). cbn [bind].
  destruct (H (lit "#viewad-price")) as [l4 E4]; [in_selectors|].
  rewrite (get_element_content_returns _ _ _ _ E4). cbn [bind].
  destruct (H (lit "#viewad-cntr-num")) as [l5 E5]; [in_selectors|].
  rewrite (get_element_content_returns _ _ _ _ E5). cbn [bind].
  destruct (H (lit "#viewad-description-text")) as [l6 E6]; [in_selectors|].
  rewrite (get_element_content_returns _ _ _ _ E6). cbn [bind].
  destruct (H (lit "#viewad-image")) as [l7 E7]; [in_selectors|].
  unfold get_image_sources, select_one. rewrite E7. cbn [bind ret].
  destruct (get_seller_details_returns soup) as [sd ->]. cbn [bind].
  destruct (get_details_returns soup) as [dt ->]. cbn [bind].
  destruct (get_features_returns soup) as [ft ->]. cbn [bind].
  destruct (H (lit ".boxedarticle--details--shipping")) as [l8 E8];
    [in_selectors|].
  rewrite (get_element_content_returns _ _ _ _ E8). cbn [bind].
  destruct (H (lit "#viewad-locality")) as [l9 E9]; [in_selectors|].
  destruct (get_location_returns soup l9 E9) as [loc ->]. cbn [bind].
  destruct (get_extra_info_returns soup) as [xi ->]. cbn [bind].
  destruct (hd_error l3); cbn [bind ret]; eauto.
Qed.

(** C8.  Whatever the document, and even when the selector engine raises,
    [get_seller_details], [get_details] and [get_features] return a value:
    no exception leaves them.  A selector that finds nothing gives the
    default of [get_element_content] and an empty list in
    [get_elements_content] and [get_image_sources].  The extraction as a
    whole returns a record as soon as the engine answers the selectors used
    outside of a [try] block, whatever they find; and when no selector finds
    anything, that record is the one of the defaults and empty values. *)
Theorem missing_fields_never_raise (soup : BeautifulSoup) :
  (exists s, get_seller_details soup = inr s)
  /\ (exists d, get_details soup = inr d)
  /\ (exists f, get_features soup = inr f)
  /\ (forall selector default,
         soup selector = inr [] ->
         get_element_content soup selector default = inr default
         /\ get_elements_content soup selector = inr []
         /\ get_image_sources soup selector = inr [])
  /\ ((forall selector, In selector direct_selectors ->
                        exists l, soup selector = inr l) ->
      exists record, extract soup = inr record)
  /\ ((forall selector, soup selector = inr []) ->
      extract soup = inr default_record
      /\ get_seller_details soup = inr (seller default_record)
      /\ get_details soup = inr []
      /\ get_features soup = inr []
      /\ get_location soup = inr (location default_record)
      /\ get_extra_info soup = inr (extra_info default_record)).
Proof.
  split; [apply get_seller_details_returns|].
  split; [apply get_details_returns|].
  split; [apply get_features_returns|].
  split.
  - intros selector default H.
    unfold get_element_content, get_elements_content, get_image_sources,
      select_one, select, bind.
    rewrite H. repeat split; reflexivity.
  - split; [apply extract_returns|].
    intros H. split; [now apply extract_finds_nothing|].
    unfold get_location, get_extra_info, get_features, get_details,
      get_seller_details, _get_seller_details_,
      get_elements_content, get_element_content, select_one, select.
    rewrite !H. repeat split; reflexivity.
Qed.

Lemma missing_fields_never_raise_witness :
  (forall selector, empty_document selector = inr [])
  /\ extract empty_document = inr default_record
  /\ get_seller_details empty_document = inr (seller default_record)
  /\ exists record, extract two_images_document = inr record.
Proof.
  assert (H : forall selector, empty_document selector = inr [])
    by (intros; reflexivity).
  split; [exact H|].
  destruct (missing_fields_never_raise empty_document)
    as [_ [_ [_ [_ [_ Hall]]]]].
  destruct (Hall H) as [He [Hs _]].
  split; [exact He|]. split; [exact Hs|].
  destruct (missing_fields_never_raise two_images_document)
    as [_ [_ [_ [_ [Hret _]]]]].
  apply Hret. intros selector _. unfold two_images_document.
  destruct (str_eqb selector (lit "#viewad-image")); eauto.
Defined.

(** ** The endpoint *)

Lemma str_eqb_nil_l (s : str) : str_eqb [] s = true -> s = [].
Proof.
  unfold str_eqb. destruct (list_eq_dec N.eq_dec [] s); congruence.
Qed.

Lemma str_eqb_refl (s : str) : str_eqb s s = true.
Proof.
  unfold str_eqb. destruct (list_eq_dec N.eq_dec s s); congruence.
Qed.

(** C9.  A request whose [id] is empty or made of whitespace only is
    answered with the HTTP status 400, and [get_inserate_details_optimized]
    is not called for it. *)
Theorem blank_id_rejected (eh : ErrorHandling) (network : nat -> AsyncClient)
        (id : str) :
  id = [] \/ forallb isspace id = true ->
  get_inserat eh network id
  = ([], inl (HTTPException 400 (DetailStr (lit "Invalid listing ID")))).
Proof.
  intros H.
  assert (Hs : strip id = []).
  { destruct H as [->|H]; [reflexivity|now apply strip_all_space]. }
  unfold get_inserat. rewrite Hs, str_eqb_refl, orb_true_r. reflexivity.
Qed.

Lemma blank_id_rejected_witness :
  (lit "  " = [] \/ forallb isspace (lit "  ") = true)
  /\ get_inserat spec_handling (always_document empty_document) (lit "  ")
     = ([], inl (HTTPException 400 (DetailStr (lit "Invalid listing ID")))).
Proof.
  assert (H : lit "  " = [] \/ forallb isspace (lit "  ") = true)
    by (right; reflexivity).
  split; [exact H|].
  exact (blank_id_rejected spec_handling (always_document empty_document)
           (lit "  ") H).
Defined.

(** An identifier with a character that is not whitespace passes the guard:
    the pipeline is called once, with the identifier and the default retry
    count. *)
Lemma other_id_reaches_pipeline (eh : ErrorHandling)
      (network : nat -> AsyncClient) (id : str) :
  forallb isspace id = false ->
  fst (get_inserat eh network id) = [(id, 2%Z)].
Proof.
  intros H. unfold get_inserat.
  assert (H1 : str_eqb id [] = false).
  { destruct id; [discriminate|reflexivity]. }
  assert (H2 : str_eqb (strip id) [] = false).
  { destruct (strip id) eqn:E; [|reflexivity].
    apply strip_nil_all_space in E. congruence. }
  rewrite H1, H2. simpl.
  destruct (snd _) as [e|[r|]]; [reflexivity| |reflexivity].
  destruct (negb (success r)); reflexivity.
Qed.

(** ** The retry loop *)

Section Loop.

Variable eh : ErrorHandling.
Variable network : nat -> AsyncClient.
Variable listing_id : str.
Variable retry_count : Z.

Local Abbreviation loop := (attempt_loop eh network listing_id retry_count).
Local Abbreviation fetch st :=
  (get_inserate_details_httpx (url listing_id) (network (fetches st))).

(** The error the classifier makes of [e] on the given attempt. *)
Local Abbreviation classified st attempt e :=
  (handle_exception eh (context (set_retry_attempt st attempt)) e
     (lit "detail_fetch_httpx")).

Local Abbreviation retries attempt se :=
  ((Z.of_nat attempt <? retry_count)%Z && should_retry eh se retry_count).

(** An attempt that extracts a record ends the loop with the success
    response. *)
Lemma loop_success (attempt : nat) (rest : list nat) (st : State)
      (record : ListingRecord) :
  fetch st = inr record ->
  exists st',
    loop (attempt :: rest) st = (st', Return (success_response st' record))
    /\ fetches st' = S (fetches st)
    /\ sleeps st' = sleeps st
    /\ last_structured_error st' = last_structured_error st
    /\ warning_manager st'
       = (if truthy (id record) then warning_manager st
          else add_warning (warning_manager st)
                 (lit "Incomplete data extracted for listing " ++ listing_id)
                 MEDIUM [listing_id]
                 (lit "Some listing information may be missing"))
    /\ exists m, tracker st' = tracker st ++ [m]
                 /\ pm_success m = true
                 /\ pm_retry_count m = attempt
                 /\ results_count m = 1
                 /\ warning_count m = List.length (warning_manager st').
Proof.
  intros H. cbn [attempt_loop]. cbn [fetches count_fetch]. rewrite H.
  eexists. split; [reflexivity|].
  destruct (truthy (id record)); cbn;
    (repeat split; eexists; split; [reflexivity|repeat split]).
Qed.

(** A failure that is not retried ends the loop with the failure response
    built from its structured error. *)
Lemma loop_failure (attempt : nat) (rest : list nat) (st : State)
      (e : scraper.exn) :
  fetch st = inl e ->
  retries attempt (classified st attempt e) = false ->
  exists st',
    loop (attempt :: rest) st
    = (st', Return (failure_response eh st' (classified st attempt e)))
    /\ fetches st' = S (fetches st)
    /\ sleeps st' = sleeps st
    /\ last_structured_error st' = Some (classified st attempt e)
    /\ warning_manager st' = warning_manager st
    /\ exists m, tracker st' = tracker st ++ [m]
                 /\ pm_success m = false
                 /\ pm_retry_count m = attempt
                 /\ results_count m = 0.
Proof.
  intros H Hr. cbn [attempt_loop]. cbn [fetches count_fetch]. rewrite H.
  cbn [context set_retry_attempt set_last_error count_fetch] in Hr |- *.
  rewrite Hr.
  eexists. split; [reflexivity|]. cbn.
  repeat split. eexists. split; [reflexivity|repeat split].
Qed.

(** A failure that is to be retried: the warning is added, and the
    evaluation of the waiting time raises; the loop is left by that
    exception, with no metric recorded and no [sleep] made. *)
Lemma loop_retry (attempt : nat) (rest : list nat) (st : State)
      (e : scraper.exn) :
  fetch st = inl e ->
  retries attempt (classified st attempt e) = true ->
  exists st',
    loop (attempt :: rest) st = (st', Raise no_trandom)
    /\ fetches st' = S (fetches st)
    /\ sleeps st' = sleeps st
    /\ last_structured_error st' = Some (classified st attempt e)
    /\ tracker st' = tracker st
    /\ exists w, warning_manager st' = warning_manager st ++ [w]
                 /\ w_severity w = MEDIUM.
Proof.
  intros H Hr. cbn [attempt_loop]. cbn [fetches count_fetch]. rewrite H.
  cbn [context set_retry_attempt set_last_error count_fetch] in Hr |- *.
  rewrite Hr.
  eexists. split; [reflexivity|]. cbn.
  repeat split. eexists. split; [reflexivity|reflexivity].
Qed.

(** The three cases together: an iteration never goes on to the next
    one. *)
Lemma loop_cons (attempt : nat) (rest : list nat) (st : State) :
  exists st',
    fetches st' = S (fetches st)
    /\ sleeps st' = sleeps st
    /\ (exists added, warning_manager st' = warning_manager st ++ added)
    /\ ((exists record,
            fetch st = inr record
            /\ loop (attempt :: rest) st
               = (st', Return (success_response st' record)))
        \/ (exists e,
               fetch st = inl e
               /\ retries attempt (classified st attempt e) = false
               /\ loop (attempt :: rest) st
                  = (st', Return (failure_response eh st'
                                    (classified st attempt e))))
        \/ (exists e,
               fetch st = inl e
               /\ retries attempt (classified st attempt e) = true
               /\ loop (attempt :: rest) st = (st', Raise no_trandom))).
Proof.
  destruct (fetch st) as [e|record] eqn:Hf.
  - destruct (retries attempt (classified st attempt e)) eqn:Hr.
    + destruct (loop_retry attempt rest st e Hf Hr)
        as [st' [Hl [Hn [Hs [_ [_ [w [Hw _]]]]]]]].
      exists st'. repeat split; eauto.
      right. right. exists e. auto.
    + destruct (loop_failure attempt rest st e Hf Hr)
        as [st' [Hl [Hn [Hs [_ [Hw _]]]]]].
      exists st'. repeat split; auto.
      * exists []. now rewrite app_nil_r.
      * right. left. exists e. auto.
  - destruct (loop_success attempt rest st record Hf)
      as [st' [Hl [Hn [Hs [_ [Hw _]]]]]].
    exists st'. repeat split; auto.
    + rewrite Hw. destruct (truthy (id record)).
      * exists []. now rewrite app_nil_r.
      * unfold add_warning. eauto.
    + left. exists record. auto.
Qed.

Local Abbreviation run :=
  (get_inserate_details_optimized eh network listing_id retry_count).
Local Abbreviation start := (initial_state listing_id).

Lemma attempts_range_cons :
  (0 <= retry_count)%Z ->
  attempts_range retry_count = 0 :: seq 1 (Z.to_nat retry_count).
Proof.
  intros H. unfold attempts_range.
  replace (Z.to_nat (retry_count + 1)) with (S (Z.to_nat retry_count)) by lia.
  reflexivity.
Qed.

(** With a retry count that is not negative, a call makes one attempt,
    whatever the attempt gives. *)
Lemma exactly_one_attempt :
  (0 <= retry_count)%Z -> fetches (fst run) = 1.
Proof.
  intros H. unfold get_inserate_details_optimized.
  rewrite (attempts_range_cons H).
  destruct (loop_cons 0 (seq 1 (Z.to_nat retry_count)) start)
    as [st' [Hn [_ [_ [[r [_ Hl]]|[[e [_ [_ Hl]]]|[e [_ [_ Hl]]]]]]]]];
    rewrite Hl; simpl; exact Hn.
Qed.

(** C3.  When the failure of attempt 0 is classified as not retryable, the
    call makes exactly one attempt and returns the failure response built
    from the structured error of that failure, whatever the retry count
    (not negative) is. *)
Theorem non_retryable_failure_single_attempt (e : scraper.exn) :
  (0 <= retry_count)%Z ->
  get_inserate_details_httpx (url listing_id) (network 0) = inl e ->
  should_retry eh (classified start 0 e) retry_count = false ->
  exists st response,
    run = (st, inr (Some response))
    /\ fetches st = 1
    /\ response = failure_response eh st (classified start 0 e)
    /\ success response = false
    /\ data response = None
    /\ error response = Some (message (classified start 0 e))
    /\ error_category response
       = Some (category_value eh (category (classified start 0 e)))
    /\ error_severity response
       = Some (severity_value eh (severity (classified start 0 e)))
    /\ recovery_suggestions response
       = Some (se_recovery_suggestions (classified start 0 e)).
Proof.
  intros Hrc Hf Hs.
  assert (Hr : retries 0 (classified start 0 e) = false)
    by (rewrite Hs; apply andb_false_r).
  destruct (loop_failure 0 (seq 1 (Z.to_nat retry_count)) start e Hf Hr)
    as [st' [Hl [Hn _]]].
  exists st'. eexists.
  unfold get_inserate_details_optimized.
  rewrite (attempts_range_cons Hrc), Hl.
  split; [reflexivity|]. split; [exact Hn|].
  repeat split.
Qed.

(** C6.  An attempt that extracts a record without its identifier adds one
    warning of severity MEDIUM about the incomplete data, records the
    attempt as successful in the metrics, and ends with the success
    response that carries the record and the warnings. *)
Theorem incomplete_record_still_success
        (attempt : nat) (rest : list nat) (st : State)
        (record : ListingRecord) :
  fetch st = inr record ->
  truthy (id record) = false ->
  exists st' response w m,
    loop (attempt :: rest) st = (st', Return response)
    /\ success response = true
    /\ data response = Some record
    /\ warning_manager st' = warning_manager st ++ [w]
    /\ w_severity w = MEDIUM
    /\ w_message w
       = lit "Incomplete data extracted for listing " ++ listing_id
    /\ detailed_warnings response = Some (warning_manager st')
    /\ tracker st' = tracker st ++ [m]
    /\ pm_success m = true
    /\ pm_retry_count m = attempt
    /\ results_count m = 1.
Proof.
  intros Hf Hid.
  destruct (loop_success attempt rest st record Hf)
    as [st' [Hl [_ [_ [_ [Hw [m [Ht [Hm1 [Hm2 [Hm3 _]]]]]]]]]]].
  rewrite Hid in Hw.
  exists st', (success_response st' record). eexists. exists m.
  split; [exact Hl|].
  split; [reflexivity|]. split; [reflexivity|].
  split; [exact Hw|].
  split; [reflexivity|]. split; [reflexivity|].
  split; [|auto].
  unfold success_response, get_warnings. rewrite Hw.
  unfold add_warning. rewrite length_app, Nat.add_comm. reflexivity.
Qed.

(** The warning of a retry, as the handler adds it before the waiting
    time is evaluated. *)
Lemma loop_retry_warning (attempt : nat) (rest : list nat) (st : State)
      (e : scraper.exn) :
  fetch st = inl e ->
  retries attempt (classified st attempt e) = true ->
  exists st',
    loop (attempt :: rest) st = (st', Raise no_trandom)
    /\ fetches st' = S (fetches st)
    /\ warning_manager st'
       = add_warning (warning_manager st)
           (lit "Retrying listing " ++ listing_id ++ lit " after "
            ++ category_value eh (category (classified st attempt e))
            ++ lit " error (attempt "
            ++ str_of_Z (Z.of_nat attempt + 1) ++ lit "/"
            ++ str_of_Z (retry_count + 1) ++ lit ")")
           MEDIUM [listing_id]
           (lit "Temporary delay before retry due to "
            ++ category_value eh (category (classified st attempt e))
            ++ lit " error").
Proof.
  intros H Hr. cbn [attempt_loop]. cbn [fetches count_fetch]. rewrite H.
  cbn [context set_retry_attempt set_last_error count_fetch] in Hr |- *.
  rewrite Hr.
  eexists. split; [reflexivity|]. split; reflexivity.
Qed.

(** The loop only appends to the warnings of the request. *)
Lemma warnings_only_appended (attempts : list nat) (st : State) :
  exists added,
    warning_manager (fst (loop attempts st)) = warning_manager st ++ added.
Proof.
  destruct attempts as [|attempt rest].
  - exists []. simpl. now rewrite app_nil_r.
  - destruct (loop_cons attempt rest st)
      as [st' [_ [_ [Ha [[r [_ Hl]]|[[e [_ [_ Hl]]]|[e [_ [_ Hl]]]]]]]]];
      rewrite Hl; exact Ha.
Qed.

(** C5.  The warning raised on attempt 0 does not reach a response.  With a
    positive retry count and a failure of attempt 0 that is to be retried,
    the call ends holding exactly the one warning of the retry, of severity
    MEDIUM, after one request: no later attempt is made, whatever the
    network would answer to it, and the caller gets no response, so that the
    warning is in none.  The warnings are only ever appended to; what fails
    is that a later attempt follows. *)
Theorem retry_warning_in_no_response (e : scraper.exn) :
  (0 < retry_count)%Z ->
  get_inserate_details_httpx (url listing_id) (network 0) = inl e ->
  should_retry eh (classified start 0 e) retry_count = true ->
  exists w,
    warning_manager (fst run) = [w]
    /\ w_severity w = MEDIUM
    /\ w_message w
       = lit "Retrying listing " ++ listing_id ++ lit " after "
         ++ category_value eh (category (classified start 0 e))
         ++ lit " error (attempt " ++ str_of_Z 1 ++ lit "/"
         ++ str_of_Z (retry_count + 1) ++ lit ")"
    /\ fetches (fst run) = 1
    /\ (forall response, snd run <> inr (Some response)).
Proof.
  intros Hrc Hf Hs.
  assert (Hr : retries 0 (classified start 0 e) = true).
  { rewrite Hs, andb_true_r. apply Z.ltb_lt. simpl. exact Hrc. }
  destruct (loop_retry_warning 0 (seq 1 (Z.to_nat retry_count)) start e
              Hf Hr) as [st [Hl [Hn Hw]]].
  unfold get_inserate_details_optimized.
  rewrite attempts_range_cons by lia. rewrite Hl. cbn [fst snd].
  eexists. split; [exact Hw|].
  split; [reflexivity|]. split; [reflexivity|]. split; [exact Hn|].
  intros response. unfold leave_context.
  destruct (context_exit eh no_trandom); discriminate.
Qed.

End Loop.

Lemma non_retryable_failure_single_attempt_witness :
  exists st response,
    get_inserate_details_optimized spec_handling
      (always_status 404 "Not Found") (lit "123") 2
    = (st, inr (Some response))
    /\ fetches st = 1
    /\ success response = false
    /\ error_category response = Some (lit "http_status").
Proof.
  destruct (non_retryable_failure_single_attempt spec_handling
              (always_status 404 "Not Found") (lit "123") 2
              (HTTPException 404
                 (DetailStr
                    (lit "Could not fetch ad details from source: Not Found"))))
    as [st [response [H1 [H2 [_ [H3 [_ [_ [H4 _]]]]]]]]].
  - lia.
  - reflexivity.
  - reflexivity.
  - exists st, response. repeat split; assumption.
Defined.

Lemma incomplete_record_still_success_witness :
  exists st' response w,
    attempt_loop spec_handling (always_document no_id_document) (lit "123") 2
      [0; 1; 2] (initial_state (lit "123"))
    = (st', Return response)
    /\ success response = true
    /\ data response = Some no_id_record
    /\ warning_manager st' = [w]
    /\ w_severity w = MEDIUM.
Proof.
  destruct (incomplete_record_still_success spec_handling
              (always_document no_id_document) (lit "123") 2
              0 [1; 2] (initial_state (lit "123")) no_id_record)
    as [st' [response [w [m [H1 [H2 [H3 [H4 [H5 _]]]]]]]]].
  - vm_compute. reflexivity.
  - reflexivity.
  - exists st', response, w. repeat split; assumption.
Defined.

Lemma retry_warning_in_no_response_witness :
  get_inserate_details_httpx (url (lit "123"))
    (unavailable_then empty_document 1)
  = inr default_record
  /\ exists w,
      warning_manager
        (fst (get_inserate_details_optimized spec_handling
                (unavailable_then empty_document) (lit "123") 2))
      = [w]
      /\ w_message w
         = lit "Retrying listing 123 after http_status error (attempt 1/3)"
      /\ fetches
           (fst (get_inserate_details_optimized spec_handling
                   (unavailable_then empty_document) (lit "123") 2))
         = 1
      /\ forall response,
          snd (get_inserate_details_optimized spec_handling
                 (unavailable_then empty_document) (lit "123") 2)
          <> inr (Some response).
Proof.
  split; [vm_compute; reflexivity|].
  destruct (retry_warning_in_no_response spec_handling
              (unavailable_then empty_document) (lit "123") 2
              (HTTPException 503
                 (DetailStr
                    (lit ("Could not fetch ad details from source: "
                          ++ "Service Unavailable")))))
    as [w [Hw [_ [Hm [Hn Hr]]]]].
  - lia.
  - reflexivity.
  - reflexivity.
  - exists w. split; [exact Hw|]. split; [|split; assumption].
    rewrite Hm. vm_compute. reflexivity.
Defined.

(** ** The retried failure *)

Section Retry.

Variable eh : ErrorHandling.
Variable network : nat -> AsyncClient.
Variable listing_id : str.
Variable retry_count : Z.

Local Abbreviation loop := (attempt_loop eh network listing_id retry_count).
Local Abbreviation run :=
  (get_inserate_details_optimized eh network listing_id retry_count).
Local Abbreviation start := (initial_state listing_id).
Local Abbreviation first_error e :=
  (handle_exception eh (context (set_retry_attempt start 0)) e
     (lit "detail_fetch_httpx")).

(** C4.  The code never waits: whatever the attempts give, the loop makes no
    call of [asyncio.sleep], from any state, and a call of
    [get_inserate_details_optimized] ends with no sleep made.  The waiting
    time [2**attempt + asyncio.trandom.uniform(0, 1)] raises when it is
    evaluated, so that no attempt k+1 follows a retryable failure of
    attempt k. *)
Theorem backoff_sleep_never_made (attempts : list nat) (st : State) :
  sleeps (fst (loop attempts st)) = sleeps st
  /\ sleeps (fst run) = []
  /\ fetches (fst (loop attempts st)) <= S (fetches st).
Proof.
  assert (H : forall l s, sleeps (fst (loop l s)) = sleeps s
                          /\ fetches (fst (loop l s)) <= S (fetches s)).
  { intros [|attempt rest] s; [simpl; auto|].
    destruct (loop_cons eh network listing_id retry_count attempt rest s)
      as [s' [Hn [Hs [_ [[r [_ Hl]]|[[e [_ [_ Hl]]]|[e [_ [_ Hl]]]]]]]]];
      rewrite Hl; simpl; rewrite Hn; auto. }
  split; [apply H|]. split; [|apply H].
  unfold get_inserate_details_optimized.
  destruct (H (attempts_range retry_count) start) as [Hs _].
  destruct (loop (attempts_range retry_count) start) as [s how].
  simpl in Hs.
  destruct how as [r|e|]; [exact Hs|exact Hs|].
  destruct (last_structured_error s); exact Hs.
Qed.

(** C2.  With a positive retry count and a failure of attempt 0 that is to
    be retried, the loop makes one attempt, within the bounds 1 and
    [retry_count + 1], and is then left by the [AttributeError] of the
    waiting time: it ends with no response, and with no metric recorded for
    the attempt. *)
Theorem retried_failure_ends_loop_by_exception (e : scraper.exn) :
  (0 < retry_count)%Z ->
  get_inserate_details_httpx (url listing_id) (network 0) = inl e ->
  should_retry eh (first_error e) retry_count = true ->
  exists st,
    loop (attempts_range retry_count) start = (st, Raise no_trandom)
    /\ fetches st = 1
    /\ 1 <= fetches st <= Z.to_nat (retry_count + 1)
    /\ tracker st = []
    /\ forall response,
        loop (attempts_range retry_count) start <> (st, Return response).
Proof.
  intros Hrc Hf Hs.
  assert (Hr : (Z.of_nat 0 <? retry_count)%Z
               && should_retry eh (first_error e) retry_count = true).
  { rewrite Hs, andb_true_r. apply Z.ltb_lt. simpl. exact Hrc. }
  destruct (loop_retry eh network listing_id retry_count 0
              (seq 1 (Z.to_nat retry_count)) start e Hf Hr)
    as [st [Hl [Hn [_ [_ [Ht _]]]]]].
  exists st. rewrite attempts_range_cons by lia. rewrite Hl.
  simpl in Hn. rewrite Hn.
  repeat split; try lia; [exact Ht|].
  intros response. discriminate.
Qed.

(** C1.  With a positive retry count and a failure of attempt 0 that is to
    be retried, the failure is classified, and then the [AttributeError] of
    the waiting time leaves the function through the context manager: the
    caller gets no response, and gets that exception itself when the context
    manager lets it through. *)
Theorem retried_failure_reaches_caller (e : scraper.exn) :
  (0 < retry_count)%Z ->
  get_inserate_details_httpx (url listing_id) (network 0) = inl e ->
  should_retry eh (first_error e) retry_count = true ->
  exists st,
    run = (st, leave_context eh no_trandom)
    /\ last_structured_error st = Some (first_error e)
    /\ (forall response, snd run <> inr (Some response))
    /\ (context_exit eh no_trandom = Some no_trandom ->
        snd run = inl no_trandom).
Proof.
  intros Hrc Hf Hs.
  assert (Hr : (Z.of_nat 0 <? retry_count)%Z
               && should_retry eh (first_error e) retry_count = true).
  { rewrite Hs, andb_true_r. apply Z.ltb_lt. simpl. exact Hrc. }
  destruct (loop_retry eh network listing_id retry_count 0
              (seq 1 (Z.to_nat retry_count)) start e Hf Hr)
    as [st [Hl' [_ [_ [He _]]]]].
  exists st. unfold get_inserate_details_optimized.
  rewrite attempts_range_cons by lia. rewrite Hl'.
  split; [reflexivity|]. split; [exact He|].
  unfold leave_context. simpl.
  split.
  - intros response. destruct (context_exit eh no_trandom); discriminate.
  - intros ->. reflexivity.
Qed.

End Retry.

Lemma retried_failure_ends_loop_by_exception_witness :
  exists st,
    attempt_loop spec_handling (always_status 503 "Service Unavailable")
      (lit "123") 2 [0; 1; 2] (initial_state (lit "123"))
    = (st, Raise no_trandom)
    /\ fetches st = 1
    /\ tracker st = [].
Proof.
  destruct (retried_failure_ends_loop_by_exception spec_handling
              (always_status 503 "Service Unavailable") (lit "123") 2
              (HTTPException 503
                 (DetailStr
                    (lit ("Could not fetch ad details from source: "
                          ++ "Service Unavailable")))))
    as [st [H1 [H2 [_ [H3 _]]]]].
  - lia.
  - reflexivity.
  - reflexivity.
  - exists st. repeat split; assumption.
Defined.

Lemma retried_failure_reaches_caller_witness :
  snd (get_inserate_details_optimized spec_handling
         (always_status 503 "Service Unavailable") (lit "123") 2)
  = inl no_trandom.
Proof.
  destruct (retried_failure_reaches_caller spec_handling
              (always_status 503 "Service Unavailable") (lit "123") 2
              (HTTPException 503
                 (DetailStr
                    (lit ("Could not fetch ad details from source: "
                          ++ "Service Unavailable")))))
    as [st [_ [_ [_ H]]]].
  - lia.
  - reflexivity.
  - reflexivity.
  - apply H. reflexivity.
Defined.

(** * Further properties *)

(** ** Prices *)

Lemma lstrip_incl (s : str) (x : N) : In x (lstrip s) -> In x s.
Proof.
  destruct (lstrip_suffix s) as [ws [E _]]. intros H.
  rewrite E. apply in_or_app. now right.
Qed.

Lemma strip_incl (s : str) (x : N) : In x (strip s) -> In x s.
Proof.
  unfold strip, rstrip. intros H.
  apply lstrip_incl. apply in_rev. apply lstrip_incl. now apply in_rev.
Qed.

Lemma replace_from_incl (old new : str) (x : N) (s : str) (skip : nat) :
  In x (replace_from old new skip s) -> In x s \/ In x new.
Proof.
  revert skip. induction s as [|c r IH]; intros skip; simpl; [tauto|].
  destruct skip as [|k].
  - destruct (startswith old (c :: r)).
    + intros H. apply in_app_or in H. destruct H as [H|H]; [now right|].
      destruct (IH _ H); auto.
    + intros [H|H]; [auto|]. destruct (IH _ H); auto.
  - intros H. destruct (IH _ H); auto.
Qed.

(** Replacing a character by a string without it leaves none of it. *)
Lemma replace_from_char_gone (c : N) (new : str) (s : str) (skip : nat) :
  ~ In c new -> ~ In c (replace_from [c] new skip s).
Proof.
  intros Hn. revert skip.
  induction s as [|a r IH]; intros skip; simpl; [tauto|].
  destruct skip as [|k]; [|apply IH].
  destruct (c =? a)%N eqn:E; simpl.
  - intros H. apply in_app_or in H. destruct H as [H|H]; [tauto|].
    now apply IH in H.
  - intros [H|H].
    + subst a. now rewrite N.eqb_refl in E.
    + now apply IH in H.
Qed.

Lemma lstrip_idem (s : str) : lstrip (lstrip s) = lstrip s.
Proof.
  induction s as [|a s IH]; simpl; [reflexivity|].
  destruct (isspace a) eqn:E; [exact IH|]. simpl. now rewrite E.
Qed.

(** [strip] leaves a stripped string as it is. *)
Lemma strip_idem (s : str) : strip (strip s) = strip s.
Proof.
  unfold strip.
  assert (H : lstrip (rstrip (lstrip s)) = rstrip (lstrip s)).
  { destruct (lstrip s) as [|c r] eqn:E; [reflexivity|].
    pose proof (lstrip_head s c r E) as Hc.
    destruct (rstrip_head c r Hc) as [r' ->]. simpl. now rewrite Hc. }
  rewrite H. unfold rstrip at 1 2. rewrite rev_involutive, lstrip_idem.
  reflexivity.
Qed.

(** The amount [parse_price] returns is free of the currency sign and of
    the decimal comma, and has no whitespace around it; the currency is the
    euro sign whatever the text. *)
Theorem parse_price_amount_clean (price_text : option str) :
  currency (parse_price price_text) = [euro]
  /\ ~ In euro (amount (parse_price price_text))
  /\ ~ In 44%N (amount (parse_price price_text))
  /\ strip (amount (parse_price price_text)) = amount (parse_price price_text).
Proof.
  destruct price_text as [[|c t]|];
    [repeat split; vm_compute; intuition discriminate| |
     repeat split; vm_compute; intuition discriminate].
  cbn [parse_price currency amount].
  split; [reflexivity|].
  set (body := strip (replace (lit "VB") [] (strip (c :: t)))).
  split; [|split].
  - intros H. apply strip_incl in H.
    apply replace_from_incl in H. destruct H as [H|H];
      [|vm_compute in H; intuition discriminate].
    apply replace_from_incl in H. destruct H as [H|H]; [|destruct H].
    revert H. apply replace_from_char_gone. simpl. tauto.
  - intros H. apply strip_incl in H. revert H.
    apply (replace_from_char_gone 44%N).
    vm_compute. intuition discriminate.
  - apply strip_idem.
Qed.

(** A price text that is not empty and is all whitespace gives an empty
    amount, not the "0" of the missing text. *)
Theorem parse_price_blank_text (price_text : str) :
  price_text <> [] ->
  forallb isspace price_text = true ->
  parse_price (Some price_text)
  = {| amount := []; currency := [euro]; negotiable := false |}.
Proof.
  intros Hne Hws. destruct price_text as [|c t]; [contradiction|].
  cbn [parse_price]. rewrite (strip_all_space _ Hws). reflexivity.
Qed.

Lemma parse_price_blank_text_witness :
  parse_price (Some (lit "  "))
  = {| amount := []; currency := [euro]; negotiable := false |}.
Proof.
  apply parse_price_blank_text; [discriminate|reflexivity].
Defined.

(** ** The seller *)

(** When the engine rejects the selector of the "active since" line, the
    handler of [get_seller_details] returns the dictionary as the
    assignments made before have left it: the name and the type are those of
    the page, [since] is [None], and [badges] is empty whatever badges the
    page shows. *)
Theorem seller_details_since_rejected
        (soup : BeautifulSoup) (l1 l2 : list Node) (e : Py.exn) :
  soup (lit ".userprofile-vip") = inr l1 ->
  soup (lit ".userprofile-vip-details-text") = inr l2 ->
  soup (lit ".userprofile-vip-details-text:has-text('Aktiv seit')") = inl e ->
  get_seller_details soup
  = inr {| seller_name := option_map get_text_strip (hd_error l1);
           seller_since := None;
           seller_type :=
             match hd_error l2 with
             | Some el =>
                 if contains (lit "Gewerblicher") (get_text_strip el)
                 then lit "business" else lit "private"
             | None => lit "private"
             end;
           seller_badges := [] |}.
Proof.
  intros H1 H2 H3.
  unfold get_seller_details, _get_seller_details_, get_element_content,
    select_one, bind.
  rewrite H1, H2, H3. cbn [ret].
  destruct (hd_error l1), (hd_error l2) as [el|]; cbn;
    try destruct (contains _ (get_text_strip el)); reflexivity.
Qed.

Lemma seller_details_since_rejected_witness :
  get_seller_details seller_document
  = inr {| seller_name := Some (lit "Lampenhaus");
           seller_since := None;
           seller_type := lit "business";
           seller_badges := [] |}.
Proof.
  exact (seller_details_since_rejected seller_document
           [text_tag "a" [] " Lampenhaus "]
           [text_tag "span" [] "Gewerblicher Nutzer"]
           {| exn_class := lit "SelectorSyntaxError";
              exn_str := lit "':has-text' was not found" |}
           eq_refl eq_refl eq_refl).
Defined.

(** Whatever the document and whatever the engine raises, the type of the
    seller is "private" or "business", and no badge is empty or has
    whitespace around it. *)
Theorem seller_type_private_or_business (soup : BeautifulSoup) :
  exists s,
    get_seller_details soup = inr s
    /\ (seller_type s = lit "private" \/ seller_type s = lit "business")
    /\ Forall (fun b => b <> [] /\ strip b = b) (seller_badges s).
Proof.
  unfold get_seller_details, _get_seller_details_, get_element_content,
    get_elements_content, select_one, select, bind.
  destruct (soup (lit ".userprofile-vip")) as [e1|l1]; cbn [ret];
    [eexists; split; [reflexivity|split; [now left|constructor]]|].
  assert (Ht : forall o : option Node,
             let t := match o with
                      | Some el =>
                          if contains (lit "Gewerblicher") (get_text_strip el)
                          then lit "business" else lit "private"
                      | None => lit "private"
                      end in
             t = lit "private" \/ t = lit "business").
  { intros [el|]; cbn; [destruct (contains _ _)|]; auto. }
  destruct (soup (lit ".userprofile-vip-details-text")) as [e2|l2];
    cbn [ret];
    [eexists; split; [reflexivity|split; [now left|constructor]]|].
  specialize (Ht (hd_error l2)). cbn in Ht.
  destruct (soup (lit ".userprofile-vip-details-text:has-text('Aktiv seit')"))
    as [e3|l3]; cbn [ret].
  - eexists. split; [reflexivity|].
    split; [|destruct (hd_error l2) as [el|]; cbn;
             [destruct (contains _ _)|]; constructor].
    destruct (hd_error l2) as [el|]; cbn; [destruct (contains _ _)|]; auto.
  - destruct (soup (lit ".userprofile-vip-badges .userbadge-tag"))
      as [e4|l4]; cbn [ret].
    + eexists. split; [reflexivity|].
      destruct (hd_error l3) as [el3|]; [destruct (get_text_strip el3)|];
        (split; [|destruct (hd_error l2) as [el|]; cbn;
                  [destruct (contains _ _)|]; constructor]);
        destruct (hd_error l2) as [el|]; cbn;
        try destruct (contains _ _); auto.
    + eexists. split; [reflexivity|]. cbn.
      split.
      * destruct (hd_error l3) as [el3|]; [destruct (get_text_strip el3)|];
          destruct (hd_error l2) as [el|]; cbn;
          try destruct (contains _ _); auto.
      * apply Forall_forall. intros b Hb.
        apply in_map_iff in Hb. destruct Hb as [x [<- Hx]].
        apply filter_In in Hx. destruct Hx as [_ Hx].
        apply andb_prop in Hx. destruct Hx as [_ Hx].
        split; [|apply strip_idem].
        intros E. rewrite E in Hx. discriminate.
Qed.

(** ** Details and features *)

Lemma str_eqb_eq (a b : str) : str_eqb a b = true <-> a = b.
Proof.
  unfold str_eqb. destruct (list_eq_dec N.eq_dec a b); split; congruence.
Qed.

Lemma dict_get_set_same (d : list (str * str)) (k v : str) :
  dict_get (dict_set d k v) k = Some v.
Proof.
  induction d as [|[k' v'] d IH]; simpl.
  - now rewrite str_eqb_refl.
  - destruct (str_eqb k' k) eqn:E; simpl.
    + now rewrite str_eqb_refl.
    + now rewrite E.
Qed.

Lemma dict_get_set_other (d : list (str * str)) (k v k' : str) :
  k' <> k -> dict_get (dict_set d k v) k' = dict_get d k'.
Proof.
  intros Hne. induction d as [|[k0 v0] d IH]; simpl.
  - destruct (str_eqb k k') eqn:E; [|reflexivity].
    apply str_eqb_eq in E. congruence.
  - destruct (str_eqb k0 k) eqn:E; simpl.
    + apply str_eqb_eq in E. subst k0.
      destruct (str_eqb k k') eqn:E'; [|reflexivity].
      apply str_eqb_eq in E'. congruence.
    + now rewrite IH.
Qed.

Lemma dict_set_keys (d : list (str * str)) (k v x : str) :
  In x (map fst (dict_set d k v)) -> x = k \/ In x (map fst d).
Proof.
  induction d as [|[k' v'] d IH]; simpl.
  - intros [H|[]]. now left.
  - destruct (str_eqb k' k) eqn:E; simpl.
    + apply str_eqb_eq in E. subst k'. tauto.
    + intros [H|H]; [tauto|]. destruct (IH H); tauto.
Qed.

Lemma dict_set_NoDup (d : list (str * str)) (k v : str) :
  NoDup (map fst d) -> NoDup (map fst (dict_set d k v)).
Proof.
  induction d as [|[k' v'] d IH]; simpl; intros H.
  - constructor; [tauto|constructor].
  - inversion H as [|? ? Hn Hd]; subst.
    destruct (str_eqb k' k) eqn:E; simpl.
    + apply str_eqb_eq in E. subst k'. now constructor.
    + constructor; [|now apply IH].
      intros Hin. apply dict_set_keys in Hin. destruct Hin as [->|Hin].
      * now rewrite str_eqb_refl in E.
      * contradiction.
Qed.

Lemma dict_set_length (d : list (str * str)) (k v : str) :
  List.length (dict_set d k v) <= S (List.length d).
Proof.
  induction d as [|[k' v'] d IH]; simpl; [lia|].
  destruct (str_eqb k' k); simpl; lia.
Qed.

(** The assignment [details[label] = value] of one item of the loop of
    [get_details]. *)
Local Abbreviation add_detail :=
  (fun (details : list (str * str)) (item : Node) =>
     match find_class item (lit "addetailslist--detail--label"),
           find_class item (lit "addetailslist--detail--value") with
     | Some l, Some v =>
         dict_set details (get_text_strip l) (get_text_strip v)
     | _, _ => details
     end).

Lemma details_loop_invariant (items : list Node) (acc : list (str * str)) :
  NoDup (map fst acc) ->
  NoDup (map fst (fold_left add_detail items acc))
  /\ List.length (fold_left add_detail items acc)
     <= List.length acc + List.length items.
Proof.
  revert acc. induction items as [|item items IH]; intros acc H; simpl.
  - split; [exact H|lia].
  - destruct (find_class item (lit "addetailslist--detail--label")) as [l|];
      [destruct (find_class item (lit "addetailslist--detail--value"))
        as [v|]|].
    + destruct (IH (dict_set acc (get_text_strip l) (get_text_strip v))
                  (dict_set_NoDup _ _ _ H)) as [A B].
      split; [exact A|].
      pose proof (dict_set_length acc (get_text_strip l) (get_text_strip v)).
      lia.
    + destruct (IH acc H). split; [assumption|lia].
    + destruct (IH acc H). split; [assumption|lia].
Qed.

(** The dictionary of [get_details] has every label once, and no more
    entries than the page has detail items; it is empty when the engine
    raises. *)
Theorem get_details_labels_distinct (soup : BeautifulSoup) :
  exists d,
    get_details soup = inr d
    /\ NoDup (map fst d)
    /\ match soup (lit "#viewad-details .addetailslist--detail") with
       | inr items => List.length d <= List.length items
       | inl _ => d = []
       end.
Proof.
  unfold get_details, try_except, bind, select.
  destruct (soup (lit "#viewad-details .addetailslist--detail"))
    as [e|items]; cbn [ret].
  - exists []. repeat split. constructor.
  - eexists. split; [reflexivity|].
    destruct (details_loop_invariant items []) as [A B]; [constructor|].
    split; [exact A|exact B].
Qed.

(** When several detail items carry the same label, the value of the last
    one is the one the dictionary gives for it. *)
Theorem get_details_last_value_wins
        (soup : BeautifulSoup) (items : list Node) (item l v : Node) :
  soup (lit "#viewad-details .addetailslist--detail") = inr (items ++ [item]) ->
  find_class item (lit "addetailslist--detail--label") = Some l ->
  find_class item (lit "addetailslist--detail--value") = Some v ->
  exists d,
    get_details soup = inr d
    /\ dict_get d (get_text_strip l) = Some (get_text_strip v).
Proof.
  intros Hs Hl Hv.
  unfold get_details, try_except, bind, select. rewrite Hs. cbn [ret].
  eexists. split; [reflexivity|].
  rewrite fold_left_app. cbn [fold_left]. rewrite Hl, Hv.
  apply dict_get_set_same.
Qed.

Lemma get_details_last_value_wins_witness :
  exists d,
    get_details details_document = inr d
    /\ dict_get d (lit "Art") = Some (lit "Leuchte")
    /\ List.length d = 2.
Proof.
  destruct (get_details_last_value_wins details_document repeated_details
              (detail_item "Art" "Leuchte")
              (text_tag "span" ["addetailslist--detail--label"%string] "Art")
              (text_tag "span" ["addetailslist--detail--value"%string]
                 "Leuchte")
              eq_refl eq_refl eq_refl) as [d [Hd Hg]].
  exists d. split; [exact Hd|]. split; [exact Hg|].
  vm_compute in Hd. injection Hd as <-. reflexivity.
Defined.

Lemma features_loop (els : list Node) (acc : list str) :
  fold_left
    (fun features feature =>
       match get_text_strip feature with
       | [] => features
       | (_ :: _) as feature_text => features ++ [feature_text]
       end) els acc
  = acc ++ filter (fun t => negb (str_eqb t [])) (map get_text_strip els).
Proof.
  revert acc. induction els as [|el els IH]; intros acc; simpl.
  - now rewrite app_nil_r.
  - rewrite IH. destruct (get_text_strip el); simpl; [reflexivity|].
    now rewrite <- app_assoc.
Qed.

(** [get_features] returns the texts of the matching elements that are not
    empty, in the order of the page, and the empty list when the engine
    raises: no feature is the empty string. *)
Theorem get_features_texts (soup : BeautifulSoup) :
  exists f,
    get_features soup = inr f
    /\ Forall (fun t => t <> []) f
    /\ f = match soup (lit "#viewad-configuration .checktaglist .checktag")
           with
           | inr els =>
               filter (fun t => negb (str_eqb t [])) (map get_text_strip els)
           | inl _ => []
           end.
Proof.
  unfold get_features, try_except, bind, select.
  destruct (soup _) as [e|els]; cbn [ret].
  - exists []. repeat split. constructor.
  - rewrite features_loop. eexists. split; [reflexivity|].
    split; [|reflexivity].
    apply Forall_forall. intros t Ht. apply filter_In in Ht.
    destruct Ht as [_ Ht]. intros ->. discriminate.
Qed.

(** ** The location *)

Lemma split_ws_from_pieces (s cur : str) :
  forallb (fun c => negb (isspace c)) cur = true ->
  Forall (fun p => p <> [] /\ forallb (fun c => negb (isspace c)) p = true)
         (split_ws_from cur s).
Proof.
  revert cur. induction s as [|c s IH]; intros cur Hc; simpl.
  - destruct cur as [|a cur]; [constructor|].
    constructor; [|constructor]. split.
    + intros E. apply (f_equal (@rev N)) in E.
      rewrite rev_involutive in E. discriminate.
    + now rewrite forallb_rev.
  - destruct (isspace c) eqn:E.
    + destruct cur as [|a cur]; [now apply IH|].
      constructor; [|now apply IH]. split.
      * intros E'. apply (f_equal (@rev N)) in E'.
        rewrite rev_involutive in E'. discriminate.
      * now rewrite forallb_rev.
    + apply IH. simpl. now rewrite E, Hc.
Qed.

(** When the engine answers the locality selector, [get_location] returns:
    no index error arises.  The state is always empty; the postal code holds
    no whitespace, and it is there as soon as the locality has a text. *)
Theorem get_location_zip (soup : BeautifulSoup) (l : list Node) :
  soup (lit "#viewad-locality") = inr l ->
  exists loc,
    get_location soup = inr loc
    /\ state loc = []
    /\ forallb (fun c => negb (isspace c)) (zip loc) = true
    /\ (zip loc = [] <->
        match hd_error l with
        | Some el => get_text_strip el = []
        | None => True
        end).
Proof.
  intros H. unfold get_location, get_element_content, select_one, bind.
  rewrite H. cbn [ret].
  destruct (hd_error l) as [el|];
    [|eexists; split; [reflexivity|]; cbn; tauto].
  destruct (get_text_strip el) as [|c r] eqn:E;
    [eexists; split; [reflexivity|]; cbn; tauto|].
  pose proof (split_ws_head c r (get_text_strip_head el c r E)) as Hne.
  pose proof (split_ws_from_pieces (c :: r) [] eq_refl) as Hp.
  fold (split_ws (c :: r)) in Hp.
  destruct (split_ws (c :: r)) as [|z rest]; [contradiction|].
  inversion Hp as [|? ? [Hz1 Hz2] _]; subst.
  eexists. split; [reflexivity|]. cbn.
  repeat split; auto; intros; [contradiction|discriminate].
Qed.

Lemma get_location_zip_witness :
  exists loc,
    get_location locality_document = inr loc
    /\ zip loc = lit "10115"
    /\ city loc = lit "Berlin - Mitte"
    /\ state loc = [].
Proof.
  destruct (get_location_zip locality_document
              [text_tag "span" [] " 10115  Berlin - Mitte "] eq_refl)
    as [loc [Hl [Hs _]]].
  exists loc. split; [exact Hl|].
  vm_compute in Hl. injection Hl as <-. repeat split.
Defined.

(** ** The extracted record *)

Lemma get_location_state (soup : BeautifulSoup) (loc : Location) :
  get_location soup = inr loc -> state loc = [].
Proof.
  unfold get_location, bind. destruct (get_element_content _ _ _) as [e|t];
    [discriminate|].
  destruct t as [[|c r]|]; try (intros H; injection H as <-; reflexivity).
  destruct (split_ws (c :: r)); [discriminate|].
  intros H. injection H as <-. reflexivity.
Qed.

(** Every record the extraction returns has the status "active", a view
    count that is not empty, a stripped title, categories that are stripped
    and not empty, the euro sign as currency, an empty state, and a delivery
    that is absent, "pickup" or "shipping". *)
Theorem extract_record_shape (soup : BeautifulSoup) (record : ListingRecord) :
  extract soup = inr record ->
  status record = lit "active"
  /\ views record <> []
  /\ strip (title record) = title record
  /\ Forall (fun c => c <> [] /\ strip c = c) (categories record)
  /\ currency (price record) = [euro]
  /\ state (location record) = []
  /\ (delivery record = None
      \/ delivery record = Some (lit "pickup")
      \/ delivery record = Some (lit "shipping")).
Proof.
  unfold extract. intros H.
  do 11 bind_inv H.
  apply bind_inr in H. destruct H as [loc [El H]].
  do 2 bind_inv H.
  injection H as <-.
  cbn [status views title categories price location delivery].
  split; [reflexivity|].
  split; [destruct v3 as [[|c r]|]; discriminate|].
  split.
  { destruct v1 as [t|]; [|discriminate].
    injection E11 as <-. destruct (contains _ t); apply strip_idem. }
  split.
  { apply Forall_forall. intros c Hc. apply in_map_iff in Hc.
    destruct Hc as [x [<- Hx]]. apply filter_In in Hx.
    destruct Hx as [_ Hx]. split; [|apply strip_idem].
    intros E'. rewrite E' in Hx. discriminate. }
  split; [destruct v2 as [[|c r]|]; reflexivity|].
  split; [now apply get_location_state in El|].
  destruct v9 as [[|c r]|]; auto.
  destruct (contains (lit "Nur Abholung") (c :: r)); auto.
  destruct (contains (lit "Versand") (c :: r)); auto.
Qed.

Lemma extract_record_shape_witness :
  status default_record = lit "active"
  /\ views default_record <> []
  /\ delivery default_record = None.
Proof.
  destruct (extract_record_shape empty_document default_record)
    as [H1 [H2 _]].
  - vm_compute. reflexivity.
  - repeat split; assumption.
Defined.

(** ** One fetch *)

(** Whatever goes wrong in [get_inserate_details_httpx], what leaves it is an
    [HTTPException] with a string as detail: it carries the status of the
    response when the response has an error status, and 500 when the request
    or the extraction raised. *)
Theorem fetch_failure_is_http_exception
        (url : str) (client : AsyncClient) (e : scraper.exn) :
  get_inserate_details_httpx url client = inl e ->
  exists status_code d,
    e = HTTPException status_code (DetailStr d)
    /\ match client url with
       | StatusError c reason =>
           status_code = c
           /\ d = lit "Could not fetch ad details from source: " ++ reason
       | GetRaises raised => status_code = 500%Z /\ d = exn_str raised
       | Document soup =>
           status_code = 500%Z
           /\ exists raised, extract soup = inl raised /\ d = exn_str raised
       end.
Proof.
  unfold get_inserate_details_httpx.
  destruct (client url) as [raised|c reason|soup].
  - intros H. injection H as <-.
    do 2 eexists. split; [reflexivity|split; reflexivity].
  - intros H. injection H as <-.
    do 2 eexists. split; [reflexivity|split; reflexivity].
  - destruct (extract soup) as [raised|record] eqn:E; [|discriminate].
    intros H. injection H as <-.
    do 2 eexists. split; [reflexivity|]. split; [reflexivity|].
    exists raised. split; reflexivity.
Qed.

Lemma fetch_failure_is_http_exception_witness :
  exists d,
    get_inserate_details_httpx (url (lit "123"))
      (always_status 404 "Not Found" 0)
    = inl (HTTPException 404 (DetailStr d)).
Proof.
  destruct (fetch_failure_is_http_exception (url (lit "123"))
              (always_status 404 "Not Found" 0)
              (HTTPException 404
                 (DetailStr
                    (lit "Could not fetch ad details from source: Not Found")))
              eq_refl) as [c [d [H _]]].
  exists (lit "Could not fetch ad details from source: Not Found").
  reflexivity.
Defined.

(** ** A whole call *)

Section Call.

Variable eh : ErrorHandling.
Variable network : nat -> AsyncClient.
Variable listing_id : str.
Variable retry_count : Z.

Local Abbreviation loop := (attempt_loop eh network listing_id retry_count).
Local Abbreviation run :=
  (get_inserate_details_optimized eh network listing_id retry_count).
Local Abbreviation start := (initial_state listing_id).
Local Abbreviation fetch0 :=
  (get_inserate_details_httpx (url listing_id) (network 0)).
Local Abbreviation first_error e :=
  (handle_exception eh (context (set_retry_attempt start 0)) e
     (lit "detail_fetch_httpx")).
Local Abbreviation retried e :=
  ((0 <? retry_count)%Z && should_retry eh (first_error e) retry_count).

(** The metric of a failure that is not retried counts the warnings of the
    request. *)
Lemma loop_failure_count (attempt : nat) (rest : list nat) (st : State)
      (e : scraper.exn) :
  get_inserate_details_httpx (url listing_id) (network (fetches st)) = inl e ->
  (Z.of_nat attempt <? retry_count)%Z
  && should_retry eh
       (handle_exception eh (context (set_retry_attempt st attempt)) e
          (lit "detail_fetch_httpx")) retry_count = false ->
  exists st' m,
    loop (attempt :: rest) st
    = (st', Return (failure_response eh st'
                      (handle_exception eh
                         (context (set_retry_attempt st attempt)) e
                         (lit "detail_fetch_httpx"))))
    /\ tracker st' = tracker st ++ [m]
    /\ pm_success m = false
    /\ warning_count m = List.length (warning_manager st').
Proof.
  intros H Hr. cbn [attempt_loop]. cbn [fetches count_fetch]. rewrite H.
  cbn [context set_retry_attempt set_last_error count_fetch] in Hr |- *.
  rewrite Hr.
  do 2 eexists. split; [reflexivity|]. cbn. repeat split.
Qed.

Lemma run_success (record : ListingRecord) :
  (0 <= retry_count)%Z ->
  fetch0 = inr record ->
  exists st,
    run = (st, inr (Some (success_response st record)))
    /\ warning_manager st
       = (if truthy (id record) then []
          else add_warning []
                 (lit "Incomplete data extracted for listing " ++ listing_id)
                 MEDIUM [listing_id]
                 (lit "Some listing information may be missing"))
    /\ exists m, tracker st = [m]
                 /\ pm_success m = true
                 /\ warning_count m = List.length (warning_manager st).
Proof.
  intros Hrc Hf.
  destruct (loop_success eh network listing_id retry_count 0
              (seq 1 (Z.to_nat retry_count)) start record Hf)
    as [st [Hl [_ [_ [_ [Hw [m [Ht [Hm [_ [_ Hc]]]]]]]]]]].
  exists st. unfold get_inserate_details_optimized.
  rewrite (attempts_range_cons retry_count Hrc), Hl.
  split; [reflexivity|]. split; [exact Hw|].
  exists m. auto.
Qed.

Lemma run_failure (e : scraper.exn) :
  (0 <= retry_count)%Z ->
  fetch0 = inl e ->
  retried e = false ->
  exists st,
    run = (st, inr (Some (failure_response eh st (first_error e))))
    /\ warning_manager st = []
    /\ exists m, tracker st = [m] /\ pm_success m = false.
Proof.
  intros Hrc Hf Hr.
  destruct (loop_failure eh network listing_id retry_count 0
              (seq 1 (Z.to_nat retry_count)) start e Hf Hr)
    as [st [Hl [_ [_ [_ [Hw [m [Ht [Hm _]]]]]]]]].
  exists st. unfold get_inserate_details_optimized.
  rewrite (attempts_range_cons retry_count Hrc), Hl.
  split; [reflexivity|]. split; [exact Hw|]. exists m. auto.
Qed.

Lemma run_retried (e : scraper.exn) :
  (0 <= retry_count)%Z ->
  fetch0 = inl e ->
  retried e = true ->
  exists st,
    run = (st, leave_context eh no_trandom)
    /\ tracker st = [].
Proof.
  intros Hrc Hf Hr.
  destruct (loop_retry eh network listing_id retry_count 0
              (seq 1 (Z.to_nat retry_count)) start e Hf Hr)
    as [st [Hl [_ [_ [_ [Ht _]]]]]].
  exists st. unfold get_inserate_details_optimized.
  rewrite (attempts_range_cons retry_count Hrc), Hl. auto.
Qed.

Lemma leave_context_no_response (e : scraper.exn) (r : Response) :
  leave_context eh e <> inr (Some r).
Proof.
  unfold leave_context. destruct (context_exit eh e); discriminate.
Qed.

Lemma run_negative :
  (retry_count < 0)%Z ->
  run = (start,
         leave_context eh
           (HTTPException 500
              (DetailStr (lit "Unexpected error in retry loop")))).
Proof.
  intros H. unfold get_inserate_details_optimized, attempts_range.
  replace (Z.to_nat (retry_count + 1)) with 0 by lia.
  reflexivity.
Qed.

(** With a negative retry count the range of attempts is empty: no request
    is made at all, and the call ends with the [HTTPException] 500
    "Unexpected error in retry loop", handed to the context manager. *)
Theorem negative_retry_count_no_attempt :
  (retry_count < 0)%Z ->
  run = (start,
         leave_context eh
           (HTTPException 500
              (DetailStr (lit "Unexpected error in retry loop"))))
  /\ fetches (fst run) = 0
  /\ forall response, snd run <> inr (Some response).
Proof.
  intros H. rewrite (run_negative H). cbn [fst snd].
  split; [reflexivity|]. split; [reflexivity|].
  intros response. apply leave_context_no_response.
Qed.

(** A page metric is recorded exactly when the call returns a response: it
    is the only metric, it is the metric of attempt 0, its success flag is
    the one of the response and its warning count the number of warnings of
    the request.  A call that ends otherwise records none. *)
Theorem metric_recorded_with_response :
  (0 <= retry_count)%Z ->
  let result :=
    get_inserate_details_optimized eh network listing_id retry_count in
  match snd result with
  | inr (Some response) =>
      exists m, tracker (fst result) = [m]
                /\ pm_success m = success response
                /\ warning_count m
                   = List.length (get_warnings (warning_manager (fst result)))
  | _ => tracker (fst result) = []
  end.
Proof.
  intros Hrc. cbv zeta. unfold get_warnings.
  destruct fetch0 as [e|record] eqn:Hf.
  - destruct (retried e) eqn:Hr.
    + destruct (run_retried e Hrc Hf Hr) as [st [-> Ht]]. cbn [fst snd].
      unfold leave_context. destruct (context_exit eh no_trandom); exact Ht.
    + destruct (loop_failure_count 0 (seq 1 (Z.to_nat retry_count)) start e
                  Hf Hr) as [st [m [Hl [Ht [Hm Hc]]]]].
      unfold get_inserate_details_optimized.
      rewrite (attempts_range_cons retry_count Hrc), Hl. cbn [fst snd].
      exists m. auto.
  - destruct (run_success record Hrc Hf) as [st [-> [_ [m [Ht [Hm Hc]]]]]].
    cbn [fst snd]. exists m. auto.
Qed.

(** A response with the success flag false has no record, has an error
    message, and has none of the warning keys: the one warning a failing
    attempt can add is the warning of a retry, and a retried attempt returns
    no response. *)
Theorem failure_response_without_warnings (st : State) (response : Response) :
  run = (st, inr (Some response)) ->
  success response = false ->
  data response = None
  /\ error response <> None
  /\ warnings response = None
  /\ detailed_warnings response = None
  /\ warning_summary response = None.
Proof.
  intros Hrun Hs.
  destruct (Z.lt_ge_cases retry_count 0) as [Hneg|Hrc].
  { rewrite (run_negative Hneg) in Hrun. injection Hrun as _ Hrun.
    now apply leave_context_no_response in Hrun. }
  destruct fetch0 as [e|record] eqn:Hf.
  - destruct (retried e) eqn:Hr.
    + destruct (run_retried e Hrc Hf Hr) as [st' [E _]].
      rewrite E in Hrun. injection Hrun as _ Hrun.
      now apply leave_context_no_response in Hrun.
    + destruct (run_failure e Hrc Hf Hr) as [st' [E [Hw _]]].
      rewrite E in Hrun. injection Hrun as <- <-.
      unfold failure_response, get_warnings. rewrite Hw. cbn.
      repeat split. discriminate.
  - destruct (run_success record Hrc Hf) as [st' [E _]].
    rewrite E in Hrun. injection Hrun as _ <-. discriminate.
Qed.

(** A first attempt that extracts a record gives the success response with
    that record and no error key.  The warning keys are there exactly when
    the identifier of the record is missing, and then they hold the one
    warning about the incomplete data. *)
Theorem success_response_warnings (record : ListingRecord) :
  (0 <= retry_count)%Z ->
  fetch0 = inr record ->
  exists st response,
    run = (st, inr (Some response))
    /\ success response = true
    /\ data response = Some record
    /\ error response = None
    /\ if truthy (id record)
       then warnings response = None
            /\ detailed_warnings response = None
            /\ warning_summary response = None
       else warnings response
            = Some [lit "Incomplete data extracted for listing "
                    ++ listing_id]
            /\ warning_summary response
               = Some {| low := 0; medium := 1; high := 0 |}.
Proof.
  intros Hrc Hf.
  destruct (run_success record Hrc Hf) as [st [E [Hw _]]].
  exists st, (success_response st record).
  split; [exact E|]. split; [reflexivity|]. split; [reflexivity|].
  split; [reflexivity|].
  unfold success_response, get_warnings, get_user_friendly_messages,
    get_warning_summary.
  rewrite Hw. destruct (truthy (id record)); cbn; repeat split.
Qed.

End Call.

Lemma negative_retry_count_no_attempt_witness :
  get_inserate_details_optimized spec_handling
    (always_document id_document) (lit "123") (-1)
  = (initial_state (lit "123"),
     inl (HTTPException 500
            (DetailStr (lit "Unexpected error in retry loop")))).
Proof.
  destruct (negative_retry_count_no_attempt spec_handling
              (always_document id_document) (lit "123") (-1)) as [H _].
  - lia.
  - exact H.
Defined.

Lemma metric_recorded_with_response_witness :
  exists m,
    tracker (fst (get_inserate_details_optimized spec_handling
                    (always_status 404 "Not Found") (lit "123") 2))
    = [m]
    /\ pm_success m = false.
Proof.
  pose proof (metric_recorded_with_response spec_handling
                (always_status 404 "Not Found") (lit "123") 2) as H.
  assert (Hrc : (0 <= 2)%Z) by lia. specialize (H Hrc).
  destruct (snd (get_inserate_details_optimized spec_handling
                   (always_status 404 "Not Found") (lit "123") 2))
    as [e|[r|]] eqn:E; try (vm_compute in E; discriminate).
  destruct H as [m [Ht [Hm _]]]. exists m. split; [exact Ht|].
  rewrite Hm. vm_compute in E. injection E as <-. reflexivity.
Defined.

Lemma failure_response_without_warnings_witness :
  exists st response,
    get_inserate_details_optimized spec_handling
      (always_status 404 "Not Found") (lit "123") 2
    = (st, inr (Some response))
    /\ success response = false
    /\ warnings response = None.
Proof.
  destruct (get_inserate_details_optimized spec_handling
              (always_status 404 "Not Found") (lit "123") 2)
    as [st [e|[r|]]] eqn:E; try (vm_compute in E; discriminate).
  assert (Hs : success r = false).
  { vm_compute in E. injection E as _ <-. reflexivity. }
  destruct (failure_response_without_warnings spec_handling
              (always_status 404 "Not Found") (lit "123") 2 st r E Hs)
    as [_ [_ [Hw _]]].
  exists st, r. auto.
Defined.

Lemma success_response_warnings_witness :
  exists st response,
    get_inserate_details_optimized spec_handling
      (always_document id_document) (lit "123") 2
    = (st, inr (Some response))
    /\ success response = true
    /\ warnings response = None.
Proof.
  destruct (success_response_warnings spec_handling
              (always_document id_document) (lit "123") 2
              {| id := Some (lit "123");
                 categories := categories default_record;
                 title := title default_record;
                 status := status default_record;
                 price := price default_record;
                 delivery := delivery default_record;
                 location := location default_record;
                 views := views default_record;
                 description := description default_record;
                 images := images default_record;
                 details := details default_record;
                 features := features default_record;
                 seller := seller default_record;
                 extra_info := extra_info default_record |})
    as [st [r [E [Hs [_ [_ Hw]]]]]].
  - lia.
  - vm_compute. reflexivity.
  - exists st, r. cbn in Hw. destruct Hw as [Hw _]. auto.
Defined.

(** With the retry count 0 every call returns a response, after one
    attempt: no failure is retried, so the waiting time is never
    evaluated. *)
Theorem zero_retries_always_respond
        (eh : ErrorHandling) (network : nat -> AsyncClient)
        (listing_id : str) :
  exists st response,
    get_inserate_details_optimized eh network listing_id 0
    = (st, inr (Some response))
    /\ fetches st = 1
    /\ sleeps st = [].
Proof.
  assert (Hrc : (0 <= 0)%Z) by lia.
  pose proof (exactly_one_attempt eh network listing_id 0 Hrc) as Hn.
  assert (Hsl : sleeps (fst (get_inserate_details_optimized
                               eh network listing_id 0)) = []).
  { unfold get_inserate_details_optimized.
    rewrite (attempts_range_cons 0 Hrc).
    destruct (loop_cons eh network listing_id 0 0 (seq 1 (Z.to_nat 0))
                (initial_state listing_id))
      as [st' [_ [Hs [_ [[r [_ Hl]]|[[e' [_ [_ Hl]]]|[e' [_ [_ Hl]]]]]]]]];
      rewrite Hl; exact Hs. }
  destruct (get_inserate_details_httpx (url listing_id) (network 0))
    as [e|record] eqn:Hf.
  - destruct (run_failure eh network listing_id 0 e Hrc Hf eq_refl)
      as [st [E _]].
    rewrite E in Hn, Hsl. exists st. eexists.
    split; [exact E|]. split; assumption.
  - destruct (run_success eh network listing_id 0 record Hrc Hf)
      as [st [E _]].
    rewrite E in Hn, Hsl. exists st. eexists.
    split; [exact E|]. split; assumption.
Qed.

(** ** The endpoint and the call together *)

(** What a call gives its caller: a response built by one of the two
    branches of the attempt, or what the context manager makes of an
    exception. *)
Lemma run_result_shape (eh : ErrorHandling) (network : nat -> AsyncClient)
      (listing_id : str) (retry_count : Z) :
  match snd (get_inserate_details_optimized eh network listing_id
               retry_count) with
  | inr (Some response) =>
      (exists st record, response = success_response st record)
      \/ (exists st se, response = failure_response eh st se)
  | inr None => exists e, context_exit eh e = None
  | inl raised => exists e, context_exit eh e = Some raised
  end.
Proof.
  assert (Hl : forall e,
             match leave_context eh e with
             | inr (Some response) =>
                 (exists st record, response = success_response st record)
                 \/ (exists st se, response = failure_response eh st se)
             | inr None => exists e, context_exit eh e = None
             | inl raised => exists e, context_exit eh e = Some raised
             end).
  { intros e. unfold leave_context.
    destruct (context_exit eh e) eqn:E; eauto. }
  unfold get_inserate_details_optimized.
  destruct (attempts_range retry_count) as [|attempt rest].
  - cbn. apply Hl.
  - destruct (loop_cons eh network listing_id retry_count attempt rest
                (initial_state listing_id))
      as [st' [_ [_ [_ [[r [_ E]]|[[e [_ [_ E]]]|[e [_ [_ E]]]]]]]]];
      rewrite E; cbn [snd]; [left; eauto|right; eauto|apply Hl].
Qed.

Section Request.

Variable eh : ErrorHandling.
Variable network : nat -> AsyncClient.

Local Abbreviation answer id := (get_inserat eh network id).
Local Abbreviation fetch0 id :=
  (get_inserate_details_httpx (url id) (network 0)).
Local Abbreviation first_error id e :=
  (handle_exception eh
     (context (set_retry_attempt (initial_state id) 0)) e
     (lit "detail_fetch_httpx")).

Lemma passes_guard (id : str) :
  forallb isspace id = false ->
  str_eqb id [] || str_eqb (strip id) [] = false.
Proof.
  intros H.
  assert (H1 : str_eqb id [] = false).
  { destruct id; [discriminate|reflexivity]. }
  assert (H2 : str_eqb (strip id) [] = false).
  { destruct (strip id) eqn:E; [|reflexivity].
    apply strip_nil_all_space in E. congruence. }
  now rewrite H1, H2.
Qed.

(** The guard of the endpoint lets through exactly the identifiers with a
    character that is not whitespace, and hands them to the pipeline as they
    are, whitespace around them included, once and with the default retry
    count 2. *)
Theorem pipeline_called_unless_blank (id : str) :
  fst (answer id) = if forallb isspace id then [] else [(id, 2%Z)].
Proof.
  destruct (forallb isspace id) eqn:H.
  - unfold get_inserat.
    now rewrite (strip_all_space id H), str_eqb_refl, orb_true_r.
  - now apply other_id_reaches_pipeline.
Qed.

(** Whatever the request, the endpoint either raises an [HTTPException] or
    returns a response with the success flag true and a record.  The status
    of the exception is 400, or 500, or the status of an [HTTPException]
    that the context manager of the pipeline let out. *)
Theorem endpoint_raises_http_or_succeeds (id : str) :
  match snd (answer id) with
  | inl (HTTPException status_code d) =>
      status_code = 400%Z \/ status_code = 500%Z
      \/ exists e, context_exit eh e = Some (HTTPException status_code d)
  | inl (PyException _) => False
  | inr c => c_success c = true /\ c_data c <> None
  end.
Proof.
  unfold get_inserat.
  destruct (str_eqb id [] || str_eqb (strip id) []); cbn [snd]; [now left|].
  pose proof (run_result_shape eh network id 2) as Hr.
  destruct (snd (get_inserate_details_optimized eh network id 2))
    as [raised|[response|]]; cbn [snd].
  - destruct raised as [c d|raised]; cbn [reraise]; auto.
  - destruct (success response) eqn:Hs; cbn [negb snd reraise]; [|auto].
    split; [reflexivity|]. cbn [c_data].
    destruct Hr as [[st [record ->]]|[st [se ->]]]; discriminate.
  - cbn [reraise]. auto.
Qed.

(** A failure that the pipeline does not retry is answered with the status
    500 and the detail "Failed to fetch listing details", whatever the
    status, the category and the message of the failure were. *)
Theorem upstream_failure_answered_500 (id : str) (e : scraper.exn) :
  forallb isspace id = false ->
  fetch0 id = inl e ->
  should_retry eh (first_error id e) 2 = false ->
  answer id
  = ([(id, 2%Z)],
     inl (HTTPException 500
            (DetailStr (lit "Failed to fetch listing details")))).
Proof.
  intros Hid Hf Hs. unfold get_inserat. rewrite (passes_guard id Hid).
  assert (Hrc : (0 <= 2)%Z) by lia.
  destruct (run_failure eh network id 2 e Hrc Hf) as [st [E _]].
  { rewrite Hs. reflexivity. }
  rewrite E. reflexivity.
Qed.

(** A failure that the pipeline sets out to retry is answered with the
    status 500 and the detail "Internal server error", when the context
    manager of the pipeline does not turn the [AttributeError] of the
    waiting time into an [HTTPException]. *)
Theorem retried_failure_answered_500 (id : str) (e : scraper.exn) :
  forallb isspace id = false ->
  fetch0 id = inl e ->
  should_retry eh (first_error id e) 2 = true ->
  (forall status_code d,
      context_exit eh no_trandom <> Some (HTTPException status_code d)) ->
  answer id
  = ([(id, 2%Z)],
     inl (HTTPException 500 (DetailStr (lit "Internal server error")))).
Proof.
  intros Hid Hf Hs Hctx. unfold get_inserat. rewrite (passes_guard id Hid).
  assert (Hrc : (0 <= 2)%Z) by lia.
  destruct (run_retried eh network id 2 e Hrc Hf) as [st [E _]].
  { rewrite Hs. reflexivity. }
  rewrite E. cbn [snd]. unfold leave_context.
  destruct (context_exit eh no_trandom) as [[c d|raised]|] eqn:Hc;
    [now destruct (Hctx c d)|reflexivity|reflexivity].
Qed.

(** A first attempt that extracts a record is answered with that record and
    the success flag true, with or without its identifier. *)
Theorem extracted_record_answered (id : str) (record : ListingRecord) :
  forallb isspace id = false ->
  fetch0 id = inr record ->
  exists c,
    answer id = ([(id, 2%Z)], inr c)
    /\ c_success c = true
    /\ c_data c = Some record.
Proof.
  intros Hid Hf. unfold get_inserat. rewrite (passes_guard id Hid).
  assert (Hrc : (0 <= 2)%Z) by lia.
  destruct (run_success eh network id 2 record Hrc Hf) as [st [E _]].
  rewrite E. cbn. eexists. split; [reflexivity|]. split; reflexivity.
Qed.

End Request.

Lemma upstream_failure_answered_500_witness :
  get_inserat spec_handling (always_status 404 "Not Found") (lit "123")
  = ([(lit "123", 2%Z)],
     inl (HTTPException 500
            (DetailStr (lit "Failed to fetch listing details")))).
Proof.
  apply (upstream_failure_answered_500 spec_handling
           (always_status 404 "Not Found") (lit "123")
           (HTTPException 404
              (DetailStr
                 (lit "Could not fetch ad details from source: Not Found"))));
    reflexivity.
Defined.

Lemma retried_failure_answered_500_witness :
  get_inserat spec_handling (always_status 503 "Service Unavailable")
    (lit "123")
  = ([(lit "123", 2%Z)],
     inl (HTTPException 500 (DetailStr (lit "Internal server error")))).
Proof.
  apply (retried_failure_answered_500 spec_handling
           (always_status 503 "Service Unavailable") (lit "123")
           (HTTPException 503
              (DetailStr
                 (lit ("Could not fetch ad details from source: "
                       ++ "Service Unavailable")))));
    try reflexivity.
  intros c d. discriminate.
Defined.

Lemma extracted_record_answered_witness :
  exists c,
    get_inserat spec_handling (always_document no_id_document) (lit " 7 ")
    = ([(lit " 7 ", 2%Z)], inr c)
    /\ c_success c = true
    /\ c_data c = Some no_id_record.
Proof.
  apply (extracted_record_answered spec_handling
           (always_document no_id_document) (lit " 7 ") no_id_record).
  - reflexivity.
  - vm_compute. reflexivity.
Defined.
